(** * Session Recall plugin: recency-decayed ranking of session search hits

    A shallow embedding of [src/extensions/session-recall/index.ts].

    Conventions of the embedding.
    - A JavaScript number is an exact rational ([Q]); the one infinite
      constant of the source, the bound of the last decay tier, has its own
      constructor.  Comparisons are the boolean tests of [Q].
    - A JavaScript string is a [string]; a character stands for one code unit
      in the range 0..255.
    - An array is a [list].
    - The host (child process, JSON parser, file system, clock) is a record of
      functions, [Host]; the commands handed to [execSync] are collected in a
      trace, so that "no external call" is a statement about that trace.
    - A [try]/[catch] is a value of [completion].
    - The shell that [execSync] starts is the token reader [Sh.parse], which
      is partial: it knows blanks, single quotes, the backslash, comments and
      a redirection, and gives no answer beyond them. *)

From Stdlib Require Import QArith Qround ZArith List String Ascii Bool Lia Lqa.
From Stdlib Require Import DecimalString Sorting.Sorted Sorting.Permutation.
Import ListNotations.

Local Open Scope string_scope.
Local Open Scope Q_scope.

(** ** The fragment of the JavaScript runtime that the plugin uses *)

Module JS.

(** [a < b] on numbers. *)
Definition ltb (a b : Q) : bool := negb (Qle_bool b a).

(** [a >= b] on numbers. *)
Definition geb (a b : Q) : bool := Qle_bool b a.

(** [Math.round]: the nearest integer, a tie going up. *)
Definition Math_round (x : Q) : Z := Qfloor (x + (1 # 2)).

(** [ToIntegerOrInfinity]: truncation towards zero. *)
Definition ToInteger (x : Q) : Z := Z.quot (Qnum x) (Zpos (Qden x)).

(** The decimal digits of an integer, as a template literal prints an
    integer-valued number. *)
Definition decimal (z : Z) : string := NilZero.string_of_int (Z.to_int z).

(** [s.length] as a number. *)
Definition length_number (s : string) : Q := inject_Z (Z.of_nat (String.length s)).

Definition code (c : ascii) : nat := nat_of_ascii c.

(** White space and line terminators among the code units below 256:
    TAB, LF, VT, FF, CR, SP and NBSP. *)
Definition is_white_space (c : ascii) : bool :=
  let n := code c in
  ((9 <=? n) && (n <=? 13) || (n =? 32) || (n =? 160))%nat.

(** The lower-case mapping of one code unit below 256: A..Z, and the
    Latin-1 capitals U+00C0..U+00DE except the multiplication sign. *)
Definition lower_char (c : ascii) : ascii :=
  let n := code c in
  if ((65 <=? n) && (n <=? 90))%nat then ascii_of_nat (n + 32)
  else if ((192 <=? n) && (n <=? 222) && negb (n =? 215))%nat
       then ascii_of_nat (n + 32)
       else c.

Fixpoint toLowerCase (s : string) : string :=
  match s with
  | EmptyString => EmptyString
  | String c s' => String (lower_char c) (toLowerCase s')
  end.

(** [s.startsWith(p)]. *)
Definition startsWith (s p : string) : bool := String.prefix p s.

(** [s.includes(p)]. *)
Fixpoint includes (s p : string) : bool :=
  String.prefix p s ||
  match s with
  | EmptyString => false
  | String _ s' => includes s' p
  end.

Fixpoint trimStart (s : string) : string :=
  match s with
  | EmptyString => EmptyString
  | String c s' => if is_white_space c then trimStart s' else s
  end.

Fixpoint trimEnd (s : string) : string :=
  match s with
  | EmptyString => EmptyString
  | String c s' =>
      match trimEnd s' with
      | EmptyString => if is_white_space c then EmptyString else String c EmptyString
      | t => String c t
      end
  end.

(** [s.trim()]. *)
Definition trim (s : string) : string := trimEnd (trimStart s).

(** Words for what [trim] leaves: a string of white space only, and the
    last code unit of a string. *)
Fixpoint all_white (s : string) : bool :=
  match s with
  | EmptyString => true
  | String c s' => is_white_space c && all_white s'
  end.

Fixpoint last_char (s : string) : option ascii :=
  match s with
  | EmptyString => None
  | String c s' =>
      match last_char s' with
      | Some d => Some d
      | None => Some c
      end
  end.

Definition starts_white (s : string) : bool :=
  match s with
  | String c _ => is_white_space c
  | EmptyString => false
  end.

Definition ends_white (s : string) : bool :=
  match last_char s with
  | Some c => is_white_space c
  | None => false
  end.

(** [s.slice(0, n)] for a literal [n >= 0]. *)
Definition slice0 (s : string) (n : nat) : string := substring 0 n s.

(** [s.replace(/'/g, r)]. *)
Fixpoint replace_quotes (s r : string) : string :=
  match s with
  | EmptyString => EmptyString
  | String c s' =>
      if Ascii.eqb c "'"%char then r ++ replace_quotes s' r
      else String c (replace_quotes s' r)
  end.

(** [xs.join(sep)]. *)
Fixpoint join (sep : string) (xs : list string) : string :=
  match xs with
  | [] => EmptyString
  | [x] => x
  | x :: rest => x ++ sep ++ join sep rest
  end.

(** The longest prefix of [s] that ends in a closing brace. *)
Fixpoint upto_last_brace (s : string) : option string :=
  match s with
  | EmptyString => None
  | String c s' =>
      match upto_last_brace s' with
      | Some t => Some (String c t)
      | None => if Ascii.eqb c "}"%char then Some (String c EmptyString) else None
      end
  end.

(** [s.match(/\{[\s\S]*\}/)]: the text from the first opening brace to the
    last closing brace after it; [None] is the [null] of a failed match. *)
Fixpoint match_braces (s : string) : option string :=
  match s with
  | EmptyString => None
  | String c s' =>
      if Ascii.eqb c "{"%char then
        match upto_last_brace s' with
        | Some t => Some (String c t)
        | None => None
        end
      else match_braces s'
  end.

Section Arrays.
Context {A : Type}.

(** [xs.map((x, i) => f x i)], the index counted from [i]. *)
Fixpoint mapi_from (i : nat) (f : A -> nat -> string) (xs : list A) : list string :=
  match xs with
  | [] => []
  | x :: rest => f x i :: mapi_from (S i) f rest
  end.

(** [xs.slice(0, end)]: a negative [end] counts from the end of the array. *)
Definition slice_to (xs : list A) (upto : Q) : list A :=
  let len := Z.of_nat (List.length xs) in
  let rel := ToInteger upto in
  let final := if (rel <? 0)%Z then Z.max (len + rel) 0 else Z.min rel len in
  firstn (Z.to_nat final) xs.

(** [xs.sort(cmp)].  The language fixes the result for a consistent
    comparator: the elements in the order of [cmp], equal ones in their
    original order.  Insertion from the right computes that list: [x]
    moves behind [y] only when [cmp x y > 0]. *)
Fixpoint insert (cmp : A -> A -> Q) (x : A) (xs : list A) : list A :=
  match xs with
  | [] => [x]
  | y :: rest =>
      if ltb 0 (cmp x y) then y :: insert cmp x rest else x :: xs
  end.

Fixpoint sort (cmp : A -> A -> Q) (xs : list A) : list A :=
  match xs with
  | [] => []
  | x :: rest => insert cmp x (sort cmp rest)
  end.
(** The order of an array sorted by a numeric key, largest first. *)
Definition descending (key : A -> Q) (a b : A) : Prop := key b <= key a.

(** The test that an element has the key [s]. *)
Definition has_key (key : A -> Q) (s : Q) (a : A) : bool := Qeq_bool (key a) s.
End Arrays.

End JS.

(** ** Configuration *)

Record SessionRecallConfig := {
  enabled : bool;
  maxResults : Q;
  minScore : Q;
  minPromptLength : Q;
  agentId : string
}.

(** The plugin configuration before validation: every field may be missing;
    a field that is given has the type that the schema declares for it, and a
    number is finite.  (The schema rejects a value of another type.) *)
Record RawConfig := {
  raw_enabled : option bool;
  raw_maxResults : option Q;
  raw_minScore : option Q;
  raw_minPromptLength : option Q;
  raw_agentId : option string
}.

Definition with_default {A : Type} (d : A) (o : option A) : A :=
  match o with Some a => a | None => d end.

Definition in_range (lo hi x : Q) : bool := Qle_bool lo x && Qle_bool x hi.

(** [sessionRecallConfigSchema.parse]: defaults for missing fields, [None]
    when a bound of the schema is violated. *)
Definition sessionRecallConfigSchema (raw : RawConfig) : option SessionRecallConfig :=
  let cfg := {|
    enabled := with_default true (raw_enabled raw);
    maxResults := with_default 5 (raw_maxResults raw);
    minScore := with_default 0.5 (raw_minScore raw);
    minPromptLength := with_default 10 (raw_minPromptLength raw);
    agentId := with_default "main" (raw_agentId raw)
  |} in
  if in_range 1 20 (maxResults cfg) && in_range 0 1 (minScore cfg)
  then Some cfg else None.

(** ** Types *)

Record SearchResult := {
  path : string;
  startLine : Q;
  endLine : Q;
  score : Q;
  snippet : string;
  source : string
}.

Record SearchResponse := {
  results : list SearchResult
}.

(** [SearchResult & { rawScore, ageInDays, decayFactor }]; [d_score] is the
    overwritten [score] field. *)
Record DecayedResult := {
  d_path : string;
  d_startLine : Q;
  d_endLine : Q;
  d_score : Q;
  d_snippet : string;
  d_source : string;
  rawScore : Q;
  ageInDays : Q;
  decayFactor : Q
}.

(** ** Decay configuration *)

Inductive limit :=
| Days (d : Q)
| Infinity.

Record DecayTier := {
  maxDays : limit;
  factor : Q
}.

Definition DECAY_TIERS : list DecayTier :=
  [ {| maxDays := Days 7; factor := 1.0 |};
    {| maxDays := Days 30; factor := 0.8 |};
    {| maxDays := Days 90; factor := 0.5 |};
    {| maxDays := Infinity; factor := 0.2 |} ].

(** [age <= bound]. *)
Definition within (age : Q) (bound : limit) : bool :=
  match bound with
  | Days d => Qle_bool age d
  | Infinity => true
  end.

(** ** The host *)

(** What a [try] block yields: a value, or an exception on its way to the
    handler. *)
Inductive completion (A : Type) :=
| Normal (a : A)
| Thrown.
Arguments Normal {A} a.
Arguments Thrown {A}.

Definition bind {A B : Type} (c : completion A) (k : A -> completion B) : completion B :=
  match c with
  | Normal a => k a
  | Thrown => Thrown
  end.

Notation "x <- c ;; k" := (bind c (fun x => k))
  (at level 61, c at next level, right associativity).

(** How a call of [execSync] with [timeout] and [maxBuffer] ends: with the
    standard output of the child, or with one of the three failures, each of
    which [execSync] raises. *)
Inductive ExecOutcome :=
| Stdout (output : string)
| TimedOut
| ProcessError
| MaxBufferExceeded.

Record Host := {
  (** [execSync(command, { encoding, timeout: 10000, maxBuffer: 1MB })] *)
  execSync : string -> ExecOutcome;
  (** [JSON.parse] at the type the source gives its result, [SearchResponse];
      [Thrown] is a [SyntaxError], or the [TypeError] that [.results.filter]
      raises in the same [try] on a payload without a [results] array. *)
  JSON_parse : string -> completion SearchResponse;
  (** [statSync(path).mtimeMs]; [Thrown] when the file cannot be examined. *)
  statSync_mtimeMs : string -> completion Q;
  (** [Date.now()] *)
  Date_now : Q;
  (** [String(x)] for a number that is not an integer. *)
  fraction_toString : Q -> string
}.

(** A value together with the commands that were handed to [execSync] while
    it was computed, in order. *)
Definition Traced (A : Type) : Type := (A * list string)%type.

Definition value {A : Type} (t : Traced A) : A := fst t.
Definition calls {A : Type} (t : Traced A) : list string := snd t.

(** The event of the hook and what the hook hands back. *)

Record Event := {
  prompt : option string
}.

Record HookResult := {
  prependContext : string
}.

Section Plugin.

Variable host : Host.

(** [String(x)]: the digits of an integer, the host's text otherwise. *)
Definition String_of_number (x : Q) : string :=
  match Qred x with
  | Qmake n 1 => JS.decimal n
  | _ => fraction_toString host x
  end.

(** ** Decay utilities *)

Definition getFileAgeInDays (filePath : string) : Q :=
  match statSync_mtimeMs host filePath with
  | Normal mtime => (Date_now host - mtime) / (1000 * 60 * 60 * 24)
  | Thrown => 0
  end.

(** The [for] loop of [getDecayFactor]: [None] when it runs to its end. *)
Fixpoint first_tier (tiers : list DecayTier) (ageInDays : Q) : option Q :=
  match tiers with
  | [] => None
  | tier :: rest =>
      if within ageInDays (maxDays tier) then Some (factor tier)
      else first_tier rest ageInDays
  end.

Definition getDecayFactor (ageInDays : Q) : Q :=
  match first_tier DECAY_TIERS ageInDays with
  | Some f => f
  | None => factor (last DECAY_TIERS {| maxDays := Infinity; factor := 0.2 |})
  end.

Definition decay (r : SearchResult) : DecayedResult :=
  let age := getFileAgeInDays (path r) in
  let f := getDecayFactor age in
  {| d_path := path r;
     d_startLine := startLine r;
     d_endLine := endLine r;
     d_snippet := snippet r;
     d_source := source r;
     rawScore := score r;
     ageInDays := age;
     decayFactor := f;
     d_score := score r * f |}.

Definition applyDecay (rs : list SearchResult) : list DecayedResult :=
  map decay rs.

(** ** Search *)

(** The array that [searchSessions] joins into the command line. *)
Definition command_words (query : string) (cfg : SessionRecallConfig) : list string :=
  let escapedQuery := JS.replace_quotes query "'\''" in
  [ "openclaw";
    "memory";
    "search";
    "'" ++ escapedQuery ++ "'";
    "--agent";
    agentId cfg;
    "--max-results";
    String_of_number (maxResults cfg * 3);
    "--min-score";
    String_of_number (minScore cfg * 0.5);
    "--json" ].

Definition command_line (query : string) (cfg : SessionRecallConfig) : string :=
  JS.join " " (command_words query cfg) ++ " 2>/dev/null".

Definition is_session (r : SearchResult) : bool := String.eqb (source r) "sessions".

Definition by_score_desc (a b : DecayedResult) : Q := d_score b - d_score a.

(** Filter to sessions, apply decay, re-sort, and limit. *)
Definition rank (cfg : SessionRecallConfig) (response : SearchResponse) : list DecayedResult :=
  let sessionResults := filter is_session (results response) in
  let decayed := applyDecay sessionResults in
  JS.slice_to
    (JS.sort by_score_desc
       (filter (fun r => JS.geb (d_score r) (minScore cfg)) decayed))
    (maxResults cfg).

(** The body of the [try] of [searchSessions]. *)
Definition searchSessions_try (query : string) (cfg : SessionRecallConfig)
  : completion (list DecayedResult) :=
  output <- match execSync host (command_line query cfg) with
            | Stdout out => Normal out
            | TimedOut | ProcessError | MaxBufferExceeded => Thrown
            end ;;
  match JS.match_braces output with
  | None => Normal []
  | Some jsonMatch =>
      response <- JSON_parse host jsonMatch ;;
      Normal (rank cfg response)
  end.

Definition searchSessions (query : string) (cfg : SessionRecallConfig)
  : Traced (list DecayedResult) :=
  (match searchSessions_try query cfg with
   | Normal rs => rs
   | Thrown => []
   end,
   [command_line query cfg]).

(** ** Formatting *)

Definition formatAge (days : Q) : string :=
  if JS.ltb days 1 then "today"
  else if JS.ltb days 2 then "yesterday"
  else if JS.ltb days 7 then JS.decimal (JS.Math_round days) ++ "d ago"
  else if JS.ltb days 30 then JS.decimal (JS.Math_round (days / 7)) ++ "w ago"
  else if JS.ltb days 365 then JS.decimal (JS.Math_round (days / 30)) ++ "mo ago"
  else JS.decimal (JS.Math_round (days / 365)) ++ "y ago".

(** The clean-up of one snippet in [formatContext]: trim, then truncate. *)
Definition clean_snippet (raw : string) : string :=
  let snippet := JS.trim raw in
  if (500 <? String.length snippet)%nat
  then JS.slice0 snippet 500 ++ "..."
  else snippet.

Definition newline : string := String (ascii_of_nat 10) EmptyString.

(** One entry of [formatContext]; [sessionFile] is computed by the source
    and not used. *)
Definition format_item (r : DecayedResult) (i : nat) : string :=
  let scorePercent := JS.Math_round (d_score r * 100) in
  let ageLabel := formatAge (ageInDays r) in
  let snippet := clean_snippet (d_snippet r) in
  "[" ++ JS.decimal (Z.of_nat (i + 1)) ++ "] (" ++ JS.decimal scorePercent ++ "%, "
      ++ ageLabel ++ ")" ++ newline ++ snippet.

Definition formatContext (rs : list DecayedResult) : string :=
  let snippets := JS.mapi_from 0 format_item rs in
  "<session-recall>" ++ newline
  ++ "The following excerpts from recent sessions may be relevant:" ++ newline
  ++ newline
  ++ JS.join (newline ++ newline) snippets ++ newline
  ++ "</session-recall>".

(** ** The [before_agent_start] hook *)

(** [!event.prompt || event.prompt.length < cfg.minPromptLength] *)
Definition too_short (cfg : SessionRecallConfig) (event : Event) : bool :=
  match prompt event with
  | None => true
  | Some p => String.eqb p EmptyString || JS.ltb (JS.length_number p) (minPromptLength cfg)
  end.

(** The prompt looks like a system or heartbeat message. *)
Definition looks_internal (p : string) : bool :=
  let promptLower := JS.toLowerCase p in
  JS.includes promptLower "heartbeat" || JS.startsWith promptLower "[system".

(** The hook.  [None] is the [undefined] of a bare [return].
    [searchSessions] catches whatever its body raises.  [formatContext]
    raises only on a hit whose fields do not have the types of
    [SearchResult] (a snippet that is no string); the [catch] of the hook
    then logs and the hook returns [undefined].  Hits are typed here, so
    that case does not occur, and what is stated of the hook below is stated
    so that it holds in that case too. *)
Definition before_agent_start (cfg : SessionRecallConfig) (event : Event)
  : Traced (option HookResult) :=
  match prompt event with
  | None => (None, [])
  | Some p =>
      if too_short cfg event then (None, [])
      else if looks_internal p then (None, [])
      else
        let '(rs, issued) := searchSessions p cfg in
        if (List.length rs =? 0)%nat then (None, issued)
        else (Some {| prependContext := formatContext rs |}, issued)
  end.

(** [register]: [Thrown] when the configuration is rejected, no hook when
    the plugin is disabled. *)
Definition register (pluginConfig : option RawConfig)
  : completion (option (Event -> Traced (option HookResult))) :=
  let rawConfig :=
    with_default {| raw_enabled := None; raw_maxResults := None; raw_minScore := None;
                    raw_minPromptLength := None; raw_agentId := None |} pluginConfig in
  match sessionRecallConfigSchema rawConfig with
  | None => Thrown
  | Some cfg =>
      if negb (enabled cfg) then Normal None
      else Normal (Some (before_agent_start cfg))
  end.

End Plugin.

(** ** A host for the examples

    The backend prints a log line and then a payload that holds four hits: an
    old session with a high score, a note from another corpus, and two recent
    sessions with the same score. *)

Module Demo.

Definition day : Q := 1000 * 60 * 60 * 24.

Definition now : Q := 1700000000000.

Definition old_hit : SearchResult :=
  {| path := "sessions/old.jsonl"; startLine := 1; endLine := 9;
     score := 0.9; snippet := "  rollout of the billing service  ";
     source := "sessions" |}.

Definition memory_hit : SearchResult :=
  {| path := "memory/notes.md"; startLine := 3; endLine := 4;
     score := 0.95; snippet := "billing contacts"; source := "memory" |}.

Definition new_hit : SearchResult :=
  {| path := "sessions/new.jsonl"; startLine := 10; endLine := 20;
     score := 0.6; snippet := "billing alarm thresholds"; source := "sessions" |}.

Definition tie_hit : SearchResult :=
  {| path := "sessions/tie.jsonl"; startLine := 5; endLine := 6;
     score := 0.6; snippet := "billing dashboard"; source := "sessions" |}.

Definition payload : string := "{payload}".

Definition response : SearchResponse :=
  {| results := [old_hit; memory_hit; new_hit; tie_hit] |}.

Definition parse (s : string) : completion SearchResponse :=
  if String.eqb s payload then Normal response else Thrown.

Definition mtime (p : string) : completion Q :=
  if String.eqb p "sessions/old.jsonl" then Normal (now - 100 * day)
  else if String.eqb p "sessions/new.jsonl" then Normal (now - 2 * day)
  else Thrown.

(** A host whose search command ends as [outcome] says. *)
Definition host_with (outcome : ExecOutcome) : Host :=
  {| execSync := fun _ => outcome;
     JSON_parse := parse;
     statSync_mtimeMs := mtime;
     Date_now := now;
     fraction_toString := fun _ => "0.25" |}.

Definition host : Host :=
  host_with (Stdout ("[plugins] 3 loaded" ++ newline ++ payload ++ newline)).

Definition no_config : RawConfig :=
  {| raw_enabled := None; raw_maxResults := None; raw_minScore := None;
     raw_minPromptLength := None; raw_agentId := None |}.

(** The configuration of the defaults. *)
Definition cfg : SessionRecallConfig :=
  {| enabled := true; maxResults := 5; minScore := 0.5; minPromptLength := 10;
     agentId := "main" |}.

(** A configuration that asks for no minimal prompt length. *)
Definition no_minimum : RawConfig :=
  {| raw_enabled := None; raw_maxResults := None; raw_minScore := None;
     raw_minPromptLength := Some 0; raw_agentId := None |}.

Definition cfg_no_minimum : SessionRecallConfig :=
  {| enabled := true; maxResults := 5; minScore := 0.5; minPromptLength := 0;
     agentId := "main" |}.

Definition empty_prompt : Event := {| prompt := Some EmptyString |}.

(** A configuration that names its agent with a remark. *)
Definition remark : RawConfig :=
  {| raw_enabled := None; raw_maxResults := None; raw_minScore := None;
     raw_minPromptLength := None; raw_agentId := Some "main #" |}.

Definition cfg_remark : SessionRecallConfig :=
  {| enabled := true; maxResults := 5; minScore := 0.5; minPromptLength := 10;
     agentId := "main #" |}.

(** [n] copies of a string. *)
Fixpoint copies (n : nat) (s : string) : string :=
  match n with
  | O => EmptyString
  | S k => s ++ copies k s
  end.

(** Snippets of 600 and of 500 characters, and one of 600 characters in a
    frame of white space. *)
Definition snippet_600 : string := copies 100 "ledger" .


Definition framed_600 : string := "  " ++ newline ++ snippet_600 ++ " ".

End Demo.

(** ** The shell of [execSync]

    [execSync] hands its command to [/bin/sh -c].  This is the part of the
    shell's token recognition that the commands of the plugin can reach:
    blanks between words, single quotes, the backslash, a comment that starts
    at [#] where a word could start, and an output redirection with a
    descriptor number of one digit.  Outside a quotation only letters, digits and the
    characters [- _ . / : , + @ %] count as plain; any other character there
    (a dollar sign, a double quote, a semicolon, a pattern character, a line
    break and so on) is outside the fragment, and the result is [None], as it
    is for a descriptor number of several digits and for a quotation that is
    not closed.  The first word is taken to name a command, as "openclaw"
    does, not to be a reserved word of the shell. *)

Module Sh.

Inductive token :=
| Arg (word : string)
| Redirect (descriptor target : string).

(** Where the reader stands: between words, in a word, in a quotation, after
    a backslash, or in a comment.  [target_of] holds the descriptor of a
    redirection whose target is being read, [bare] tells that the word so far
    has no quoted part. *)
Inductive state :=
| Between (target_of : option string)
| InWord (target_of : option string) (bare : bool) (word : string)
| InQuote (target_of : option string) (word : string)
| Escaped (target_of : option string) (word : string)
| Comment.

Definition is_blank (c : ascii) : bool :=
  let n := nat_of_ascii c in ((n =? 32) || (n =? 9))%nat.

Definition is_digit (c : ascii) : bool :=
  let n := nat_of_ascii c in ((48 <=? n) && (n <=? 57))%nat.

Definition is_letter (c : ascii) : bool :=
  let n := nat_of_ascii c in
  ((65 <=? n) && (n <=? 90) || (97 <=? n) && (n <=? 122))%nat.

Definition is_plain (c : ascii) : bool :=
  is_letter c || is_digit c ||
  existsb (Ascii.eqb c) ["-"; "_"; "."; "/"; ":"; ","; "+"; "@"; "%"]%char.

Fixpoint all_digits (s : string) : bool :=
  match s with
  | EmptyString => true
  | String c s' => is_digit c && all_digits s'
  end.

Fixpoint all_plain (s : string) : bool :=
  match s with
  | EmptyString => true
  | String c s' => is_plain c && all_plain s'
  end.


(** Unquoted digits right before [>] name a descriptor. *)
Definition io_number (bare : bool) (w : string) : bool :=
  match w with
  | EmptyString => false
  | _ => bare && all_digits w
  end.

Definition one_char (w : string) : bool :=
  match w with
  | String _ EmptyString => true
  | _ => false
  end.

Definition snoc (w : string) (c : ascii) : string := w ++ String c EmptyString.

Definition emit (target_of : option string) (w : string)
  (rest : option (list token)) : option (list token) :=
  match rest with
  | Some ts =>
      Some (match target_of with
            | None => Arg w
            | Some fd => Redirect fd w
            end :: ts)
  | None => None
  end.

Definition finish (st : state) : option (list token) :=
  match st with
  | Between None => Some []
  | Between (Some _) => None
  | InWord k _ w => emit k w (Some [])
  | InQuote _ _ => None
  | Escaped _ _ => None
  | Comment => Some []
  end.

Fixpoint lex (s : string) (st : state) : option (list token) :=
  match s with
  | EmptyString => finish st
  | String c s' =>
      match st with
      | Between k =>
          if is_blank c then lex s' (Between k)
          else if Ascii.eqb c "'" then lex s' (InQuote k EmptyString)
          else if Ascii.eqb c "\" then lex s' (Escaped k EmptyString)
          else if Ascii.eqb c "#" then
            match k with None => lex s' Comment | Some _ => None end
          else if Ascii.eqb c ">" then
            match k with None => lex s' (Between (Some "1")) | Some _ => None end
          else if is_plain c then lex s' (InWord k true (String c EmptyString))
          else None
      | InWord k bare w =>
          if is_blank c then emit k w (lex s' (Between None))
          else if Ascii.eqb c "'" then lex s' (InQuote k w)
          else if Ascii.eqb c "\" then lex s' (Escaped k w)
          else if Ascii.eqb c ">" then
            match k with
            | None =>
                if io_number bare w then
                  if one_char w then lex s' (Between (Some w)) else None
                else emit k w (lex s' (Between (Some "1")))
            | Some _ => emit k w (lex s' (Between (Some "1")))
            end
          else if is_plain c || Ascii.eqb c "#" then lex s' (InWord k bare (snoc w c))
          else None
      | InQuote k w =>
          if Ascii.eqb c "'" then lex s' (InWord k false w)
          else lex s' (InQuote k (snoc w c))
      | Escaped k w =>
          if (nat_of_ascii c =? 10)%nat then None
          else lex s' (InWord k false (snoc w c))
      | Comment =>
          if (nat_of_ascii c =? 10)%nat then None
          else lex s' Comment
      end
  end.

(** The tokens of a command line. *)
Definition parse (command : string) : option (list token) := lex command (Between None).

End Sh.

(** ** Words for the statements *)

(** The code unit [c] occurs in [s]. *)
Fixpoint has_char (c : ascii) (s : string) : bool :=
  match s with
  | EmptyString => false
  | String d s' => Ascii.eqb d c || has_char c s'
  end.

(** The test of the selection: the decayed score reaches [minScore]. *)
Definition passes (cfg : SessionRecallConfig) (r : DecayedResult) : bool :=
  JS.geb (d_score r) (minScore cfg).

(** The candidates of a response: its session hits, decayed, that pass. *)
Definition candidates (host : Host) (cfg : SessionRecallConfig)
  (response : SearchResponse) : list DecayedResult :=
  filter (passes cfg) (applyDecay host (filter is_session (results response))).

(** * Properties *)

(** ** Comparisons of numbers *)

Lemma ltb_true (a b : Q) : JS.ltb a b = true <-> a < b.
Proof.
  unfold JS.ltb. rewrite negb_true_iff. split.
  - intros H. apply Qnot_le_lt. intros Hle.
    apply Qle_bool_iff in Hle. congruence.
  - intros H. destruct (Qle_bool b a) eqn:E; trivial.
    apply Qle_bool_iff in E. lra.
Qed.

Lemma ltb_false (a b : Q) : JS.ltb a b = false <-> b <= a.
Proof.
  unfold JS.ltb. rewrite negb_false_iff. apply Qle_bool_iff.
Qed.

Lemma geb_true (a b : Q) : JS.geb a b = true <-> b <= a.
Proof. unfold JS.geb. apply Qle_bool_iff. Qed.

Lemma Qle_bool_false (a b : Q) : Qle_bool a b = false <-> b < a.
Proof.
  split.
  - intros H. apply Qnot_le_lt. intros Hle.
    apply Qle_bool_iff in Hle. congruence.
  - intros H. destruct (Qle_bool a b) eqn:E; trivial.
    apply Qle_bool_iff in E. lra.
Qed.

(** ** The decay factor *)

(** The four buckets of the tier table. *)
Lemma getDecayFactor_cases (a : Q) :
  (a <= 7 /\ getDecayFactor a = 1.0) \/
  (7 < a /\ a <= 30 /\ getDecayFactor a = 0.8) \/
  (30 < a /\ a <= 90 /\ getDecayFactor a = 0.5) \/
  (90 < a /\ getDecayFactor a = 0.2).
Proof.
  unfold getDecayFactor, DECAY_TIERS, first_tier, within, maxDays, factor.
  destruct (Qle_bool a 7) eqn:E7.
  { left. apply Qle_bool_iff in E7. auto. }
  apply Qle_bool_false in E7.
  destruct (Qle_bool a 30) eqn:E30.
  { right; left. apply Qle_bool_iff in E30. auto. }
  apply Qle_bool_false in E30.
  destruct (Qle_bool a 90) eqn:E90.
  { right; right; left. apply Qle_bool_iff in E90. auto. }
  apply Qle_bool_false in E90.
  right; right; right. auto.
Qed.

Lemma first_tier_split (tiers : list DecayTier) (a f : Q) :
  first_tier tiers a = Some f ->
  exists before tier after,
    tiers = (before ++ tier :: after)%list /\
    Forall (fun t => within a (maxDays t) = false) before /\
    within a (maxDays tier) = true /\
    f = factor tier.
Proof.
  induction tiers as [|t rest IH]; simpl; [discriminate|].
  destruct (within a (maxDays t)) eqn:E.
  - intros [= <-]. exists [], t, rest. repeat split; auto.
  - intros H. destruct (IH H) as (before & tier & after & -> & Hb & Ht & ->).
    exists (t :: before), tier, after. repeat split; auto.
Qed.

Lemma first_tier_default (a : Q) : exists f, first_tier DECAY_TIERS a = Some f.
Proof.
  unfold DECAY_TIERS. simpl.
  repeat match goal with
         | |- context [if ?b then _ else _] => destruct b; eauto
         end.
Qed.

(** C2: [getDecayFactor] returns the factor of the first tier of the table
    whose bound is at least the age (no tier before it has such a bound), and
    with the table of the source that is 1.0 up to 7 days, 0.8 up to 30,
    0.5 up to 90 and 0.2 beyond. *)
Theorem getDecayFactor_first_matching_tier (a : Q) :
  (exists before tier after,
     DECAY_TIERS = (before ++ tier :: after)%list /\
     Forall (fun t => within a (maxDays t) = false) before /\
     within a (maxDays tier) = true /\
     getDecayFactor a = factor tier) /\
  (a <= 7 -> getDecayFactor a = 1.0) /\
  (7 < a -> a <= 30 -> getDecayFactor a = 0.8) /\
  (30 < a -> a <= 90 -> getDecayFactor a = 0.5) /\
  (90 < a -> getDecayFactor a = 0.2).
Proof.
  split.
  - destruct (first_tier_default a) as [f Hf].
    destruct (first_tier_split _ _ _ Hf) as (before & tier & after & H1 & H2 & H3 & H4).
    exists before, tier, after. repeat split; auto.
    unfold getDecayFactor. rewrite Hf. exact H4.
  - destruct (getDecayFactor_cases a) as [[H ->]|[(H1 & H2 & ->)|[(H1 & H2 & ->)|[H ->]]]];
      repeat split; intros; try reflexivity; lra.
Qed.

Lemma getDecayFactor_first_matching_tier_witness :
  getDecayFactor 3 = 1.0 /\ getDecayFactor 7 = 1.0 /\
  getDecayFactor 7.5 = 0.8 /\ getDecayFactor 30 = 0.8 /\
  getDecayFactor 45 = 0.5 /\ getDecayFactor 90 = 0.5 /\
  getDecayFactor 100 = 0.2.
Proof.
  repeat apply conj.
  - apply (getDecayFactor_first_matching_tier 3). lra.
  - apply (getDecayFactor_first_matching_tier 7). lra.
  - apply (getDecayFactor_first_matching_tier 7.5); lra.
  - apply (getDecayFactor_first_matching_tier 30); lra.
  - apply (getDecayFactor_first_matching_tier 45); lra.
  - apply (getDecayFactor_first_matching_tier 90); lra.
  - apply (getDecayFactor_first_matching_tier 100); lra.
Defined.

(** ** What [applyDecay] stores in a result *)

Lemma decay_fields (host : Host) (r : SearchResult) :
  rawScore (decay host r) = score r /\
  ageInDays (decay host r) = getFileAgeInDays host (path r) /\
  decayFactor (decay host r) = getDecayFactor (ageInDays (decay host r)) /\
  d_score (decay host r) = rawScore (decay host r) * decayFactor (decay host r) /\
  d_source (decay host r) = source r.
Proof. repeat split. Qed.

Lemma applyDecay_inv (host : Host) (rs : list SearchResult) (d : DecayedResult) :
  In d (applyDecay host rs) -> exists r, In r rs /\ d = decay host r.
Proof.
  unfold applyDecay. rewrite in_map_iff. intros (r & <- & Hr). eauto.
Qed.

Example decay_demo :
  Qred (ageInDays (decay Demo.host Demo.old_hit)) = 100 /\
  Qred (d_score (decay Demo.host Demo.old_hit)) = Qred 0.18 /\
  Qred (ageInDays (decay Demo.host Demo.tie_hit)) = 0 /\
  Qred (d_score (decay Demo.host Demo.new_hit)) = Qred 0.6.
Proof. vm_compute. repeat apply conj; reflexivity. Qed.

(** ** Arrays: [slice] and [sort] *)

Section ArrayFacts.

Context {A : Type}.

Lemma slice_to_firstn (xs : list A) (n : Q) :
  exists k, JS.slice_to xs n = firstn k xs.
Proof. unfold JS.slice_to. eauto. Qed.

Lemma ToInteger_le (n : Q) : 0 <= n -> (0 <= JS.ToInteger n)%Z /\ inject_Z (JS.ToInteger n) <= n.
Proof.
  intros Hn. destruct n as [p q]. unfold JS.ToInteger. simpl.
  assert (Hp : (0 <= p)%Z).
  { unfold Qle in Hn. simpl in Hn. lia. }
  rewrite Z.quot_div_nonneg by lia.
  split.
  - apply Z.div_pos; lia.
  - change (p / Zpos q)%Z with (Qfloor (p # q)). apply Qfloor_le.
Qed.

Lemma slice_to_length (xs : list A) (n : Q) :
  0 <= n -> inject_Z (Z.of_nat (List.length (JS.slice_to xs n))) <= n.
Proof.
  intros Hn. destruct (ToInteger_le n Hn) as [H0 H1].
  unfold JS.slice_to.
  destruct (Z.ltb_spec (JS.ToInteger n) 0) as [Hneg|_]; [lia|].
  rewrite length_firstn.
  apply Qle_trans with (inject_Z (JS.ToInteger n)); [|exact H1].
  rewrite <- Zle_Qle. lia.
Qed.

Lemma firstn_filter_prefix (p : A -> bool) (k : nat) (xs : list A) :
  exists rest, filter p xs = (filter p (firstn k xs) ++ rest)%list.
Proof.
  exists (filter p (skipn k xs)).
  rewrite <- filter_app, firstn_skipn. reflexivity.
Qed.

Lemma firstn_In (k : nat) (y : A) (xs : list A) :
  In y (firstn k xs) -> In y xs.
Proof.
  revert k. induction xs as [|x rest IH]; intros [|k]; simpl; try tauto.
  intros [->|H]; eauto.
Qed.

(** A comparator that orders by a numeric key, largest first. *)
Variable key : A -> Q.
Variable cmp : A -> A -> Q.
Hypothesis cmp_key : forall a b, cmp a b == key b - key a.

Lemma insert_In (x y : A) (xs : list A) :
  In y (JS.insert cmp x xs) <-> y = x \/ In y xs.
Proof.
  induction xs as [|z rest IH]; simpl.
  - intuition auto.
  - destruct (JS.ltb 0 (cmp x z)); simpl; rewrite ?IH; intuition auto.
Qed.

Lemma sort_In (y : A) (xs : list A) : In y (JS.sort cmp xs) <-> In y xs.
Proof.
  induction xs as [|x rest IH]; simpl; [tauto|].
  rewrite insert_In, IH. intuition auto.
Qed.

Local Abbreviation descending := (JS.descending key).
Local Abbreviation has_key := (JS.has_key key).

Lemma insert_sorted (x : A) (xs : list A) :
  StronglySorted descending xs -> StronglySorted descending (JS.insert cmp x xs).
Proof.
  induction 1 as [|z rest Hs IH Hall]; simpl.
  - constructor; constructor.
  - destruct (JS.ltb 0 (cmp x z)) eqn:E.
    + apply ltb_true in E. rewrite cmp_key in E.
      constructor; [exact IH|].
      apply Forall_forall. intros y Hy. apply insert_In in Hy.
      destruct Hy as [->|Hy].
      * unfold JS.descending. lra.
      * rewrite Forall_forall in Hall. auto.
    + apply ltb_false in E. rewrite cmp_key in E.
      constructor; [constructor; assumption|].
      constructor; [unfold JS.descending; lra|].
      rewrite Forall_forall in Hall |- *. intros y Hy.
      specialize (Hall y Hy). unfold JS.descending in *. lra.
Qed.

Lemma sort_sorted (xs : list A) : StronglySorted descending (JS.sort cmp xs).
Proof.
  induction xs as [|x rest IH]; simpl; [constructor|].
  apply insert_sorted, IH.
Qed.

Lemma firstn_sorted (k : nat) (xs : list A) :
  StronglySorted descending xs -> StronglySorted descending (firstn k xs).
Proof.
  intros H. revert k. induction H as [|z rest Hs IH Hall]; intros [|k]; simpl;
    try constructor; auto.
  rewrite Forall_forall in Hall |- *. intros y Hy.
  apply Hall. eapply firstn_In; eassumption.
Qed.

(** Sorting moves no element past another one with the same key. *)
Lemma insert_filter_key (s : Q) (x : A) (xs : list A) :
  filter (has_key s) (JS.insert cmp x xs) = filter (has_key s) (x :: xs).
Proof.
  induction xs as [|z rest IH]; [reflexivity|].
  simpl JS.insert. destruct (JS.ltb 0 (cmp x z)) eqn:E; [|reflexivity].
  apply ltb_true in E. rewrite cmp_key in E.
  simpl in IH |- *. rewrite IH.
  unfold JS.has_key.
  destruct (Qeq_bool (key x) s) eqn:Ex; [|reflexivity].
  destruct (Qeq_bool (key z) s) eqn:Ez; [|reflexivity].
  apply Qeq_bool_iff in Ex, Ez. lra.
Qed.

Lemma sort_filter_key (s : Q) (xs : list A) :
  filter (has_key s) (JS.sort cmp xs) = filter (has_key s) xs.
Proof.
  induction xs as [|x rest IH]; [reflexivity|].
  simpl JS.sort. rewrite insert_filter_key. simpl. rewrite IH. reflexivity.
Qed.

End ArrayFacts.

(** ** Examples *)

Example schema_defaults : sessionRecallConfigSchema Demo.no_config = Some Demo.cfg.
Proof. reflexivity. Qed.

Example search_demo :
  map d_path (value (searchSessions Demo.host "billing alarms" Demo.cfg))
  = ["sessions/new.jsonl"; "sessions/tie.jsonl"].
Proof. vm_compute. reflexivity. Qed.

Example command_demo :
  calls (searchSessions Demo.host "what's up" Demo.cfg)
  = ["openclaw memory search 'what'\''s up' --agent main --max-results 15 --min-score 0.25 --json 2>/dev/null"].
Proof. vm_compute. reflexivity. Qed.

(** ** The result of [searchSessions] *)

Section SearchFacts.

Variable host : Host.
Variable cfg : SessionRecallConfig.

(** Either nothing is returned, or the backend answered with a response and
    the result is its ranking. *)
Lemma searchSessions_value (query : string) :
  value (searchSessions host query cfg) = [] \/
  exists out block response,
    execSync host (command_line host query cfg) = Stdout out /\
    JS.match_braces out = Some block /\
    JSON_parse host block = Normal response /\
    value (searchSessions host query cfg) = rank host cfg response.
Proof.
  unfold searchSessions, searchSessions_try, value. simpl.
  destruct (execSync host (command_line host query cfg)) as [out| | |] eqn:Ex;
    simpl; auto.
  destruct (JS.match_braces out) as [block|] eqn:Em; auto.
  destruct (JSON_parse host block) as [response|] eqn:Ep; simpl; auto.
  right. exists out, block, response. auto.
Qed.

Lemma rank_In (response : SearchResponse) (d : DecayedResult) :
  In d (rank host cfg response) ->
  exists r, In r (results response) /\ is_session r = true /\
            d = decay host r /\ minScore cfg <= d_score d.
Proof.
  unfold rank. intros H.
  destruct (slice_to_firstn
              (JS.sort by_score_desc
                 (filter (fun r => JS.geb (d_score r) (minScore cfg))
                    (applyDecay host (filter is_session (results response)))))
              (maxResults cfg)) as [k Hk].
  rewrite Hk in H. apply firstn_In in H.
  apply (proj1 (sort_In by_score_desc _ _)) in H.
  apply filter_In in H. destruct H as [H Hmin].
  apply geb_true in Hmin.
  destruct (applyDecay_inv _ _ _ H) as (r & Hr & ->).
  apply filter_In in Hr. destruct Hr as [Hr Hs].
  exists r. auto.
Qed.

End SearchFacts.

Section RankFacts.

Variable host : Host.
Variable cfg : SessionRecallConfig.

Lemma by_score_desc_key (a b : DecayedResult) :
  by_score_desc a b == d_score b - d_score a.
Proof. reflexivity. Qed.

Lemma rank_sorted (response : SearchResponse) :
  StronglySorted (JS.descending d_score) (rank host cfg response).
Proof.
  unfold rank.
  match goal with
  | |- context [JS.slice_to ?xs ?n] => destruct (slice_to_firstn xs n) as [k ->]
  end.
  apply firstn_sorted.
  apply (sort_sorted d_score by_score_desc by_score_desc_key).
Qed.

Lemma rank_length (response : SearchResponse) :
  0 <= maxResults cfg ->
  inject_Z (Z.of_nat (List.length (rank host cfg response))) <= maxResults cfg.
Proof. intros H. unfold rank. apply slice_to_length, H. Qed.

Lemma filter_filter_key (s : Q) (ds : list DecayedResult) :
  minScore cfg <= s ->
  filter (JS.has_key d_score s)
    (filter (fun r => JS.geb (d_score r) (minScore cfg)) ds)
  = filter (JS.has_key d_score s) ds.
Proof.
  intros Hs. induction ds as [|d rest IH]; [reflexivity|].
  simpl. destruct (JS.geb (d_score d) (minScore cfg)) eqn:E; simpl.
  - rewrite IH. reflexivity.
  - rewrite IH. unfold JS.has_key.
    destruct (Qeq_bool (d_score d) s) eqn:Ed; [|reflexivity].
    apply Qeq_bool_iff in Ed.
    assert (JS.geb (d_score d) (minScore cfg) = true) by (apply geb_true; lra).
    congruence.
Qed.

Lemma filter_none_below (s : Q) (ds : list DecayedResult) :
  s < minScore cfg ->
  filter (JS.has_key d_score s)
    (filter (fun r => JS.geb (d_score r) (minScore cfg)) ds) = [].
Proof.
  intros Hs. induction ds as [|d rest IH]; [reflexivity|].
  simpl. destruct (JS.geb (d_score d) (minScore cfg)) eqn:E; simpl; [|exact IH].
  rewrite IH. unfold JS.has_key.
  destruct (Qeq_bool (d_score d) s) eqn:Ed; [|reflexivity].
  apply Qeq_bool_iff in Ed. apply geb_true in E. lra.
Qed.

(** The results with one score are, in the order of the response, the first
    of the session hits that decay to that score. *)
Lemma rank_stable (response : SearchResponse) (s : Q) :
  exists rest,
    filter (JS.has_key d_score s)
      (applyDecay host (filter is_session (results response)))
    = (filter (JS.has_key d_score s) (rank host cfg response) ++ rest)%list.
Proof.
  unfold rank.
  match goal with
  | |- context [JS.slice_to ?xs ?n] => destruct (slice_to_firstn xs n) as [k ->]
  end.
  match goal with
  | |- context [firstn k ?xs] =>
      destruct (firstn_filter_prefix (JS.has_key d_score s) k xs) as [rest Hrest]
  end.
  rewrite (sort_filter_key d_score by_score_desc by_score_desc_key) in Hrest.
  destruct (Qlt_le_dec s (minScore cfg)) as [Hlt|Hle].
  - rewrite filter_none_below in Hrest by exact Hlt.
    symmetry in Hrest. apply app_eq_nil in Hrest. destruct Hrest as [-> _].
    simpl. eauto.
  - rewrite filter_filter_key in Hrest by exact Hle.
    exists rest. exact Hrest.
Qed.

End RankFacts.

(** ** Configurations that pass the schema *)

Lemma schema_bounds (raw : RawConfig) (cfg : SessionRecallConfig) :
  sessionRecallConfigSchema raw = Some cfg ->
  1 <= maxResults cfg /\ maxResults cfg <= 20 /\
  0 <= minScore cfg /\ minScore cfg <= 1.
Proof.
  unfold sessionRecallConfigSchema, in_range.
  match goal with |- context [if ?b then _ else _] => destruct b eqn:E end;
    [|discriminate].
  intros [= <-]. cbn [maxResults minScore] in *.
  repeat rewrite andb_true_iff in E. repeat rewrite Qle_bool_iff in E. tauto.
Qed.

(** ** Decay never raises a score *)



(** ** Selection *)

(** C1: with a configuration that passed the schema, [searchSessions] returns
    at most [maxResults] results; the score of each is its raw score times its
    decay factor and is at least [minScore]; and they are in descending order
    of that decayed score. *)
Theorem searchSessions_bounded_filtered_sorted
  (host : Host) (raw : RawConfig) (cfg : SessionRecallConfig) (query : string) :
  sessionRecallConfigSchema raw = Some cfg ->
  inject_Z (Z.of_nat (List.length (value (searchSessions host query cfg))))
    <= maxResults cfg /\
  Forall (fun d => d_score d = rawScore d * decayFactor d /\
                   decayFactor d = getDecayFactor (ageInDays d) /\
                   minScore cfg <= d_score d)
         (value (searchSessions host query cfg)) /\
  StronglySorted (fun a b => d_score b <= d_score a)
                 (value (searchSessions host query cfg)).
Proof.
  intros Hcfg. destruct (schema_bounds raw cfg Hcfg) as (Hmax & _).
  destruct (searchSessions_value host cfg query)
    as [->|(out & block & response & _ & _ & _ & ->)].
  - split; [|split; constructor].
    apply Qle_trans with 1; [discriminate|exact Hmax].
  - split; [apply rank_length; lra|]. split; [|apply rank_sorted].
    apply Forall_forall. intros d Hd.
    destruct (rank_In host cfg response d Hd) as (r & _ & _ & -> & Hmin).
    repeat split. exact Hmin.
Qed.

Lemma searchSessions_bounded_filtered_sorted_witness :
  inject_Z (Z.of_nat (List.length
     (value (searchSessions Demo.host "billing alarms" Demo.cfg)))) <= 5 /\
  Forall (fun d => d_score d = rawScore d * decayFactor d /\
                   decayFactor d = getDecayFactor (ageInDays d) /\
                   0.5 <= d_score d)
         (value (searchSessions Demo.host "billing alarms" Demo.cfg)) /\
  StronglySorted (fun a b => d_score b <= d_score a)
                 (value (searchSessions Demo.host "billing alarms" Demo.cfg)).
Proof.
  apply (searchSessions_bounded_filtered_sorted
           Demo.host Demo.no_config Demo.cfg "billing alarms").
  reflexivity.
Defined.

(** C7: every result of [searchSessions] carries the source tag "sessions",
    and a hit with another tag is not among the results, whatever its
    score. *)
Theorem searchSessions_only_sessions
  (host : Host) (cfg : SessionRecallConfig) (query : string) :
  Forall (fun d => d_source d = "sessions") (value (searchSessions host query cfg)) /\
  (forall r : SearchResult,
      source r <> "sessions" ->
      ~ In (decay host r) (value (searchSessions host query cfg))).
Proof.
  assert (H : forall d, In d (value (searchSessions host query cfg)) ->
                        d_source d = "sessions").
  { intros d Hd.
    destruct (searchSessions_value host cfg query)
      as [E|(out & block & response & _ & _ & _ & E)]; rewrite E in Hd.
    - destruct Hd.
    - destruct (rank_In host cfg response d Hd) as (r & _ & Hs & -> & _).
      unfold is_session in Hs. apply String.eqb_eq in Hs. exact Hs. }
  split.
  - apply Forall_forall, H.
  - intros r Hr Hin. apply Hr. apply (H _ Hin).
Qed.

Lemma searchSessions_only_sessions_witness :
  ~ In (decay Demo.host Demo.memory_hit)
       (value (searchSessions Demo.host "billing alarms" Demo.cfg)).
Proof.
  apply (searchSessions_only_sessions Demo.host Demo.cfg "billing alarms").
  discriminate.
Defined.

(** C10: when the backend answers with a response, the results that share a
    decayed score appear in the order in which their hits stand in that
    response: for every score, the results with that score are an initial
    part of the session hits of the response that decay to it. *)
Theorem searchSessions_stable
  (host : Host) (cfg : SessionRecallConfig) (query out block : string)
  (response : SearchResponse) (s : Q) :
  execSync host (command_line host query cfg) = Stdout out ->
  JS.match_braces out = Some block ->
  JSON_parse host block = Normal response ->
  exists rest,
    filter (JS.has_key d_score s)
      (applyDecay host (filter is_session (results response)))
    = (filter (JS.has_key d_score s) (value (searchSessions host query cfg))
       ++ rest)%list.
Proof.
  intros Hx Hm Hp.
  unfold searchSessions, searchSessions_try, value. simpl.
  rewrite Hx. simpl. rewrite Hm, Hp. simpl.
  apply rank_stable.
Qed.

Lemma searchSessions_stable_witness :
  exists rest,
    filter (JS.has_key d_score 0.6)
      (applyDecay Demo.host (filter is_session (results Demo.response)))
    = (filter (JS.has_key d_score 0.6)
         (value (searchSessions Demo.host "billing alarms" Demo.cfg))
       ++ rest)%list.
Proof.
  apply (searchSessions_stable Demo.host Demo.cfg "billing alarms"
           ("[plugins] 3 loaded" ++ newline ++ Demo.payload ++ newline)
           Demo.payload Demo.response 0.6); reflexivity.
Defined.

Example stable_demo :
  map d_path
    (filter (JS.has_key d_score 0.6)
       (value (searchSessions Demo.host "billing alarms" Demo.cfg)))
  = map path [Demo.new_hit; Demo.tie_hit].
Proof. vm_compute. reflexivity. Qed.

(** ** Strings *)

Lemma prefix_app (p s : string) :
  String.prefix p s = true <-> exists post, s = p ++ post.
Proof.
  revert s. induction p as [|a p IH]; intros s; simpl.
  - destruct s; split; eauto.
  - destruct s as [|b s]; simpl.
    + split; [discriminate|]. intros [post H]. discriminate.
    + destruct (ascii_dec a b) as [->|Hne].
      * rewrite IH. split; intros [post H]; exists post; congruence.
      * split; [discriminate|]. intros [post H]. congruence.
Qed.

Lemma includes_app (s p : string) :
  JS.includes s p = true <-> exists pre post, s = pre ++ p ++ post.
Proof.
  split.
  - induction s as [|c s IH]; cbn [JS.includes]; rewrite orb_true_iff.
    + intros [H|H]; [|discriminate].
      apply prefix_app in H. destruct H as [post H].
      exists EmptyString, post. exact H.
    + intros [H|H].
      * apply prefix_app in H. destruct H as [post H].
        exists EmptyString, post. exact H.
      * destruct (IH H) as (pre & post & ->).
        exists (String c pre), post. reflexivity.
  - intros (pre & post & ->). induction pre as [|c pre IH].
    + assert (H : String.prefix p (p ++ post) = true)
        by (apply prefix_app; eauto).
      cbn [append]. destruct (p ++ post); cbn [JS.includes]; rewrite H; reflexivity.
    + cbn [append JS.includes]. rewrite IH. apply orb_true_r.
Qed.

Lemma upto_last_brace_prefix (s t : string) :
  JS.upto_last_brace s = Some t -> exists post, s = t ++ post.
Proof.
  revert t. induction s as [|c s IH]; intros t; simpl; [discriminate|].
  destruct (JS.upto_last_brace s) as [u|].
  - intros [= <-]. destruct (IH u eq_refl) as [post ->].
    exists post. reflexivity.
  - destruct (Ascii.eqb c "}"); [|discriminate].
    intros [= <-]. exists s. reflexivity.
Qed.

(** The text that the pattern matches is a part of the output. *)
Lemma match_braces_part (s block : string) :
  JS.match_braces s = Some block -> exists pre post, s = pre ++ block ++ post.
Proof.
  revert block. induction s as [|c s IH]; intros block; simpl; [discriminate|].
  destruct (Ascii.eqb c "{").
  - destruct (JS.upto_last_brace s) as [t|] eqn:E; [|discriminate].
    intros [= <-]. destruct (upto_last_brace_prefix s t E) as [post ->].
    exists EmptyString, post. reflexivity.
  - intros H. destruct (IH block H) as (pre & post & ->).
    exists (String c pre), post. reflexivity.
Qed.

(** ** Failures of the search *)

Lemma hook_without_results (host : Host) (cfg : SessionRecallConfig) (event : Event) :
  (forall p, prompt event = Some p -> value (searchSessions host p cfg) = []) ->
  value (before_agent_start host cfg event) = None.
Proof.
  intros H. unfold before_agent_start.
  destruct (prompt event) as [p|]; [|reflexivity].
  destruct (too_short cfg event); [reflexivity|].
  destruct (looks_internal p); [reflexivity|].
  specialize (H p eq_refl).
  destruct (searchSessions host p cfg) as [rs issued]. unfold value in H. simpl in H.
  subst rs. reflexivity.
Qed.

(** C4: when the search command times out, fails or prints too much, or when
    no part of what it printed parses as JSON, [searchSessions] returns the
    empty list, and the hook for that prompt returns no context. *)
Theorem searchSessions_failure_is_empty
  (host : Host) (cfg : SessionRecallConfig) (query : string) :
  execSync host (command_line host query cfg) = TimedOut \/
  execSync host (command_line host query cfg) = ProcessError \/
  execSync host (command_line host query cfg) = MaxBufferExceeded \/
  (exists out,
      execSync host (command_line host query cfg) = Stdout out /\
      forall pre block post,
        out = pre ++ block ++ post -> JSON_parse host block = Thrown) ->
  value (searchSessions host query cfg) = [] /\
  value (before_agent_start host cfg {| prompt := Some query |}) = None.
Proof.
  intros H.
  assert (E : value (searchSessions host query cfg) = []).
  { unfold searchSessions, searchSessions_try, value. simpl.
    destruct H as [->|[->|[->|(out & -> & Hnone)]]]; try reflexivity.
    simpl. destruct (JS.match_braces out) as [block|] eqn:Em; [|reflexivity].
    destruct (match_braces_part out block Em) as (pre & post & Hout).
    rewrite (Hnone pre block post Hout). reflexivity. }
  split; [exact E|].
  apply hook_without_results. simpl. intros p [= <-]. exact E.
Qed.

Lemma searchSessions_failure_is_empty_witness :
  (value (searchSessions (Demo.host_with TimedOut) "billing alarms" Demo.cfg) = [] /\
   value (before_agent_start (Demo.host_with TimedOut) Demo.cfg
            {| prompt := Some "billing alarms" |}) = None) /\
  (value (searchSessions (Demo.host_with (Stdout "error: {index unreachable"))
            "billing alarms" Demo.cfg) = [] /\
   value (before_agent_start (Demo.host_with (Stdout "error: {index unreachable"))
            Demo.cfg {| prompt := Some "billing alarms" |}) = None).
Proof.
  split.
  - apply (searchSessions_failure_is_empty
             (Demo.host_with TimedOut) Demo.cfg "billing alarms").
    left. reflexivity.
  - apply (searchSessions_failure_is_empty
             (Demo.host_with (Stdout "error: {index unreachable"))
             Demo.cfg "billing alarms").
    right; right; right. exists "error: {index unreachable".
    split; [reflexivity|].
    intros pre block post Hout. simpl. unfold Demo.parse.
    destruct (String.eqb_spec block Demo.payload) as [->|_]; [|reflexivity].
    assert (Hin : JS.includes "error: {index unreachable" Demo.payload = true).
    { apply includes_app. exists pre, post. exact Hout. }
    vm_compute in Hin. discriminate Hin.
Defined.

Example garbled_tail_is_empty :
  value (searchSessions
           (Demo.host_with (Stdout ("note {x} " ++ Demo.payload ++ " done }")))
           "billing alarms" Demo.cfg) = [].
Proof. vm_compute. reflexivity. Qed.

(** ** The search command *)

Lemma Qred_inject_Z (n : Z) : Qred (inject_Z n) = inject_Z n.
Proof.
  unfold Qred, inject_Z.
  generalize (Z.ggcd_gcd n 1) (Z.ggcd_correct_divisors n 1).
  destruct (Z.ggcd n 1) as [g [a b]]. simpl.
  intros Hg [Ha Hb]. rewrite Z.gcd_1_r in Hg. subst g.
  replace a with n by lia. replace b with 1%Z by lia. reflexivity.
Qed.

Lemma String_of_number_integer (host : Host) (x : Q) (n : Z) :
  x == inject_Z n -> String_of_number host x = JS.decimal n.
Proof.
  intros H. unfold String_of_number.
  rewrite (Qred_complete _ _ H), Qred_inject_Z. reflexivity.
Qed.

(** ** The gate of the hook *)

Lemma too_short_iff (cfg : SessionRecallConfig) (event : Event) :
  too_short cfg event = true <->
  prompt event = None \/ prompt event = Some EmptyString \/
  exists p, prompt event = Some p /\ JS.length_number p < minPromptLength cfg.
Proof.
  unfold too_short. destruct (prompt event) as [p|].
  - rewrite orb_true_iff, String.eqb_eq, ltb_true. split.
    + intros [->|H]; [auto|]. right; right. eauto.
    + intros [H|[[= ->]|(q & [= ->] & H)]]; [discriminate|auto|auto].
  - split; auto.
Qed.

Lemma looks_internal_iff (p : string) :
  looks_internal p = true <->
  (exists pre post, JS.toLowerCase p = pre ++ "heartbeat" ++ post) \/
  (exists post, JS.toLowerCase p = "[system" ++ post).
Proof.
  unfold looks_internal, JS.startsWith.
  rewrite orb_true_iff, includes_app, prefix_app. reflexivity.
Qed.

(** What the hook does, by the two tests of its gate. *)
Lemma hook_gate (host : Host) (cfg : SessionRecallConfig) (event : Event) :
  (too_short cfg event = true /\
   before_agent_start host cfg event = (None, [])) \/
  (exists p, prompt event = Some p /\ too_short cfg event = false /\
             looks_internal p = true /\
             before_agent_start host cfg event = (None, [])) \/
  (exists p, prompt event = Some p /\ too_short cfg event = false /\
             looks_internal p = false /\
             calls (before_agent_start host cfg event) = [command_line host p cfg]).
Proof.
  unfold before_agent_start.
  destruct (prompt event) as [p|] eqn:Ep.
  - destruct (too_short cfg event) eqn:Et; [left; auto|].
    destruct (looks_internal p) eqn:El.
    + right; left. exists p. auto.
    + right; right. exists p.
      split; [reflexivity|]. split; [reflexivity|]. split; [exact El|].
      pose proof (eq_refl : calls (searchSessions host p cfg)
                            = [command_line host p cfg]) as Hc.
      destruct (searchSessions host p cfg) as [rs issued].
      unfold calls in *. simpl in Hc. subst issued.
      destruct (List.length rs =? 0)%nat; reflexivity.
  - left. split; [|reflexivity]. unfold too_short. rewrite Ep. reflexivity.
Qed.

(** C3, as the code has it: the hook returns no context and issues no search
    command exactly when the prompt is absent or empty, or shorter than
    [minPromptLength], or its lower-case form contains "heartbeat" or starts
    with "[system"; so a prompt of three characters is skipped when
    [minPromptLength] is 10. *)
Theorem gate_skips_exactly (host : Host) (cfg : SessionRecallConfig) (event : Event) :
  ((value (before_agent_start host cfg event) = None /\
    calls (before_agent_start host cfg event) = []) <->
   (prompt event = None \/ prompt event = Some EmptyString \/
    exists p, prompt event = Some p /\
      (JS.length_number p < minPromptLength cfg \/
       (exists pre post, JS.toLowerCase p = pre ++ "heartbeat" ++ post) \/
       (exists post, JS.toLowerCase p = "[system" ++ post)))) /\
  (forall p, prompt event = Some p ->
             String.length p = 3%nat ->
             minPromptLength cfg == 10 ->
             value (before_agent_start host cfg event) = None /\
             calls (before_agent_start host cfg event) = []).
Proof.
  assert (Hskip : too_short cfg event = true \/
                  (exists p, prompt event = Some p /\ looks_internal p = true) ->
                  value (before_agent_start host cfg event) = None /\
                  calls (before_agent_start host cfg event) = []).
  { intros H.
    destruct (hook_gate host cfg event)
      as [[_ ->]|[(p & _ & _ & _ & ->)|(p & Ep & Et & El & _)]]; auto.
    destruct H as [H|(q & Eq & H)]; congruence. }
  split; [split|].
  - intros [_ Hcalls].
    destruct (hook_gate host cfg event)
      as [[Ht _]|[(p & Ep & _ & El & _)|(p & _ & _ & _ & Hc)]].
    + apply too_short_iff in Ht.
      destruct Ht as [H|[H|(p & Ep & H)]]; auto.
      right; right. exists p. auto.
    + apply looks_internal_iff in El. right; right. exists p. tauto.
    + rewrite Hc in Hcalls. discriminate.
  - intros H. apply Hskip.
    destruct H as [H|[H|(p & Ep & [H|H])]].
    + left. apply too_short_iff. auto.
    + left. apply too_short_iff. auto.
    + left. apply too_short_iff. right; right. eauto.
    + right. exists p. split; [exact Ep|]. apply looks_internal_iff. exact H.
  - intros p Ep Hlen Hmin. apply Hskip. left.
    apply too_short_iff. right; right. exists p. split; [exact Ep|].
    unfold JS.length_number. rewrite Hlen, Hmin. reflexivity.
Qed.

Lemma gate_skips_exactly_witness :
  value (before_agent_start Demo.host Demo.cfg {| prompt := Some "hey" |}) = None /\
  calls (before_agent_start Demo.host Demo.cfg {| prompt := Some "hey" |}) = [].
Proof.
  apply (proj2 (gate_skips_exactly Demo.host Demo.cfg {| prompt := Some "hey" |}) "hey");
    reflexivity.
Defined.

(** C3, as the claim words it, fails for the empty prompt when the
    configuration sets [minPromptLength] to 0: the prompt is present, its
    length is not below 0 and it holds neither marker, and yet the hook
    skips it. *)
Lemma gate_empty_prompt_counterexample :
  sessionRecallConfigSchema Demo.no_minimum = Some Demo.cfg_no_minimum /\
  ~ ((value (before_agent_start Demo.host Demo.cfg_no_minimum Demo.empty_prompt) = None /\
      calls (before_agent_start Demo.host Demo.cfg_no_minimum Demo.empty_prompt) = []) <->
     (prompt Demo.empty_prompt = None \/
      exists p, prompt Demo.empty_prompt = Some p /\
        (JS.length_number p < minPromptLength Demo.cfg_no_minimum \/
         (exists pre post, JS.toLowerCase p = pre ++ "heartbeat" ++ post) \/
         (exists post, JS.toLowerCase p = "[system" ++ post)))).
Proof.
  split; [reflexivity|].
  intros [H _].
  destruct H as [H|(p & Ep & H)].
  - split; reflexivity.
  - discriminate H.
  - injection Ep as <-. simpl in H.
    destruct H as [H|[(pre & post & H)|(post & H)]].
    + vm_compute in H. discriminate H.
    + destruct pre; discriminate H.
    + discriminate H.
Qed.

Example gate_examples :
  calls (before_agent_start Demo.host Demo.cfg {| prompt := Some "HEARTBEAT check of the billing queue" |}) = [] /\
  calls (before_agent_start Demo.host Demo.cfg {| prompt := Some "[System Message] nightly wake-up" |}) = [] /\
  calls (before_agent_start Demo.host Demo.cfg {| prompt := None |}) = [] /\
  List.length (calls (before_agent_start Demo.host Demo.cfg {| prompt := Some "billing alarms" |})) = 1%nat.
Proof. vm_compute. repeat apply conj; reflexivity. Qed.

(** ** Snippets *)

Lemma length_append (a b : string) :
  String.length (a ++ b) = (String.length a + String.length b)%nat.
Proof. induction a as [|c a IH]; simpl; [reflexivity|]. rewrite IH. reflexivity. Qed.

Lemma slice0_prefix (n : nat) (s : string) :
  String.length (JS.slice0 s n) = Nat.min n (String.length s) /\
  exists rest, s = JS.slice0 s n ++ rest.
Proof.
  unfold JS.slice0. revert s. induction n as [|n IH]; intros s.
  - destruct s; simpl; split; eauto.
  - destruct s as [|c s]; simpl.
    + split; [reflexivity|]. exists EmptyString. reflexivity.
    + destruct (IH s) as [Hlen [rest Hrest]]. split; [congruence|].
      exists rest. congruence.
Qed.

Lemma trimStart_spec (s : string) :
  exists pre, s = pre ++ JS.trimStart s /\ JS.all_white pre = true /\
              JS.starts_white (JS.trimStart s) = false.
Proof.
  induction s as [|c s (pre & Hs & Hpre & Hclean)]; simpl.
  - exists EmptyString. auto.
  - destruct (JS.is_white_space c) eqn:E.
    + exists (String c pre). simpl. rewrite E, Hpre. repeat split; [congruence|exact Hclean].
    + exists EmptyString. simpl. auto.
Qed.

Lemma trimEnd_spec (s : string) :
  exists post, s = JS.trimEnd s ++ post /\ JS.all_white post = true /\
               JS.ends_white (JS.trimEnd s) = false.
Proof.
  unfold JS.ends_white.
  induction s as [|c s (post & Hs & Hpost & Hclean)]; simpl.
  - exists EmptyString. auto.
  - destruct (JS.trimEnd s) as [|a t] eqn:Et.
    + simpl in Hs. subst post.
      destruct (JS.is_white_space c) eqn:E.
      * exists (String c s). simpl. rewrite E, Hpost. auto.
      * exists s. simpl. rewrite E. auto.
    + exists post. split; [simpl in *; congruence|]. split; [exact Hpost|].
      change (JS.last_char (String c (String a t)))
        with (match JS.last_char (String a t) with Some d => Some d | None => Some c end).
      destruct (JS.last_char (String a t)) eqn:El; [exact Hclean|].
      simpl in El. destruct (JS.last_char t); discriminate.
Qed.

Lemma trimEnd_keeps_start (s : string) :
  JS.starts_white s = false -> JS.starts_white (JS.trimEnd s) = false.
Proof.
  destruct s as [|c s]; simpl; [reflexivity|].
  intros Hc. destruct (JS.trimEnd s); [rewrite Hc|]; simpl; auto.
Qed.

(** [trim] removes a run of white space at either end, and all of it. *)
Lemma trim_spec (s : string) :
  exists pre post,
    s = pre ++ JS.trim s ++ post /\
    JS.all_white pre = true /\ JS.all_white post = true /\
    JS.starts_white (JS.trim s) = false /\ JS.ends_white (JS.trim s) = false.
Proof.
  unfold JS.trim.
  destruct (trimStart_spec s) as (pre & Hs & Hpre & Hstart).
  destruct (trimEnd_spec (JS.trimStart s)) as (post & Ht & Hpost & Hend).
  exists pre, post. repeat split; auto.
  - rewrite <- Ht. exact Hs.
  - apply trimEnd_keeps_start, Hstart.
Qed.



Example clean_snippet_demo :
  clean_snippet Demo.framed_600 = substring 0 500 Demo.snippet_600 ++ "..." /\
  clean_snippet "  billing alarm thresholds " = "billing alarm thresholds".
Proof. vm_compute. split; reflexivity. Qed.

(** ** Age labels *)

(** [Math.round] yields the nearest integer, the upper one at a tie. *)
Lemma Math_round_nearest (x : Q) :
  inject_Z (JS.Math_round x) - (1 # 2) <= x /\
  x < inject_Z (JS.Math_round x) + (1 # 2).
Proof.
  unfold JS.Math_round.
  pose proof (Qfloor_le (x + (1 # 2))) as Hle.
  pose proof (Qlt_floor (x + (1 # 2))) as Hlt.
  rewrite inject_Z_plus in Hlt. change (inject_Z 1) with 1 in Hlt.
  split; lra.
Qed.

(** C6: [formatAge] gives the label of the first bucket that holds the age,
    the count in it rounded to the nearest integer; so half a day is "today",
    a day and a half "yesterday", 6.9 days "7d ago" and 400 days "1y ago". *)
Theorem formatAge_labels (d : Q) :
  (d < 1 -> formatAge d = "today") /\
  (1 <= d -> d < 2 -> formatAge d = "yesterday") /\
  (2 <= d -> d < 7 -> formatAge d = JS.decimal (JS.Math_round d) ++ "d ago") /\
  (7 <= d -> d < 30 -> formatAge d = JS.decimal (JS.Math_round (d / 7)) ++ "w ago") /\
  (30 <= d -> d < 365 ->
   formatAge d = JS.decimal (JS.Math_round (d / 30)) ++ "mo ago") /\
  (365 <= d -> formatAge d = JS.decimal (JS.Math_round (d / 365)) ++ "y ago") /\
  (forall x : Q,
      inject_Z (JS.Math_round x) - (1 # 2) <= x /\
      x < inject_Z (JS.Math_round x) + (1 # 2)) /\
  formatAge 0.5 = "today" /\
  formatAge 1.5 = "yesterday" /\
  formatAge 6.9 = "7d ago" /\
  formatAge 400 = "1y ago".
Proof.
  unfold formatAge.
  repeat apply conj; try reflexivity; try exact Math_round_nearest; intros;
    repeat match goal with
           | |- context [JS.ltb d ?k] =>
               let E := fresh "E" in
               destruct (JS.ltb d k) eqn:E;
               [apply ltb_true in E | apply ltb_false in E]
           end;
    try reflexivity; lra.
Qed.

Lemma formatAge_labels_witness :
  formatAge 0.5 = "today" /\
  formatAge 1.5 = "yesterday" /\
  formatAge 6.9 = JS.decimal (JS.Math_round 6.9) ++ "d ago" /\
  formatAge 20 = JS.decimal (JS.Math_round (20 / 7)) ++ "w ago" /\
  formatAge 100 = JS.decimal (JS.Math_round (100 / 30)) ++ "mo ago" /\
  formatAge 400 = JS.decimal (JS.Math_round (400 / 365)) ++ "y ago".
Proof.
  repeat apply conj.
  - destruct (formatAge_labels 0.5) as (H & _). apply H. lra.
  - destruct (formatAge_labels 1.5) as (_ & H & _). apply H; lra.
  - destruct (formatAge_labels 6.9) as (_ & _ & H & _). apply H; lra.
  - destruct (formatAge_labels 20) as (_ & _ & _ & H & _). apply H; lra.
  - destruct (formatAge_labels 100) as (_ & _ & _ & _ & H & _). apply H; lra.
  - destruct (formatAge_labels 400) as (_ & _ & _ & _ & _ & H & _). apply H; lra.
Defined.

Example formatAge_demo :
  map formatAge [0; 1; 2; 2.5; 7; 10.5; 29; 30; 45; 364; 365; 1000]
  = ["today"; "yesterday"; "2d ago"; "3d ago"; "1w ago"; "2w ago"; "4w ago";
     "1mo ago"; "2mo ago"; "12mo ago"; "1y ago"; "3y ago"].
Proof. vm_compute. reflexivity. Qed.

(** ** The injected block *)

Example formatContext_demo :
  value (before_agent_start Demo.host Demo.cfg {| prompt := Some "billing alarms" |})
  = Some {| prependContext :=
      "<session-recall>" ++ newline
      ++ "The following excerpts from recent sessions may be relevant:" ++ newline
      ++ newline
      ++ "[1] (60%, 2d ago)" ++ newline
      ++ "billing alarm thresholds" ++ newline
      ++ newline
      ++ "[2] (60%, today)" ++ newline
      ++ "billing dashboard" ++ newline
      ++ "</session-recall>" |}.
Proof. vm_compute. reflexivity. Qed.

(** * Further properties of the plugin *)

(** ** The tier table covers every age *)

(** A table that ends in an unbounded tier gives every age a factor: the loop
    of [getDecayFactor] returns from inside, and the statement after the loop
    is not reached with [DECAY_TIERS]. *)
Theorem first_tier_covers (tiers : list DecayTier) (final : DecayTier) (age : Q) :
  maxDays final = Infinity ->
  (exists f, first_tier (tiers ++ [final])%list age = Some f /\
             exists t, In t (tiers ++ [final])%list /\ f = factor t) /\
  first_tier DECAY_TIERS age = Some (getDecayFactor age).
Proof.
  intros Hfinal. split.
  - induction tiers as [|t rest IH]; simpl.
    + rewrite Hfinal. simpl. exists (factor final). split; [reflexivity|].
      exists final. auto.
    + destruct (within age (maxDays t)).
      * exists (factor t). split; [reflexivity|]. exists t. auto.
      * destruct IH as (f & Hf & u & Hu & ->).
        exists (factor u). split; [exact Hf|]. exists u. auto.
  - unfold getDecayFactor.
    destruct (first_tier_default age) as [f ->]. reflexivity.
Qed.

Lemma first_tier_covers_witness :
  exists f, first_tier ([ {| maxDays := Days 1; factor := 1 |} ]
                        ++ [ {| maxDays := Infinity; factor := 0.1 |} ])%list 12
            = Some f /\
            exists t, In t ([ {| maxDays := Days 1; factor := 1 |} ]
                            ++ [ {| maxDays := Infinity; factor := 0.1 |} ])%list
                      /\ f = factor t.
Proof.
  destruct (first_tier_covers [ {| maxDays := Days 1; factor := 1 |} ]
              {| maxDays := Infinity; factor := 0.1 |} 12) as [H _].
  - reflexivity.
  - exact H.
Defined.

(** ** The age of a file *)

(** A file that cannot be examined counts as new: age 0, factor 1.0, and the
    decayed score is the raw score. *)
Theorem unreadable_file_keeps_score (host : Host) (r : SearchResult) :
  statSync_mtimeMs host (path r) = Thrown ->
  ageInDays (decay host r) = 0 /\
  decayFactor (decay host r) = 1.0 /\
  d_score (decay host r) == score r.
Proof.
  intros H. unfold decay, getFileAgeInDays. rewrite H. simpl.
  split; [reflexivity|]. split; [reflexivity|].
  change (getDecayFactor 0) with 1.0. ring.
Qed.

Lemma unreadable_file_keeps_score_witness :
  ageInDays (decay Demo.host Demo.tie_hit) = 0 /\
  decayFactor (decay Demo.host Demo.tie_hit) = 1.0 /\
  d_score (decay Demo.host Demo.tie_hit) == score Demo.tie_hit.
Proof.
  apply (unreadable_file_keeps_score Demo.host Demo.tie_hit). reflexivity.
Defined.

(** The age is the time since the last modification in days of 86400000
    milliseconds.  A file modified at most 604800000 ms ago, or with a
    modification time in the future, keeps its score; one modified more than
    7776000000 ms ago keeps a fifth of it. *)
Theorem file_age_buckets (host : Host) (r : SearchResult) (mtime : Q) :
  statSync_mtimeMs host (path r) = Normal mtime ->
  ageInDays (decay host r) * 86400000 == Date_now host - mtime /\
  (Date_now host - mtime <= 604800000 -> d_score (decay host r) == score r) /\
  (604800000 < Date_now host - mtime -> Date_now host - mtime <= 2592000000 ->
   d_score (decay host r) == score r * 0.8) /\
  (2592000000 < Date_now host - mtime -> Date_now host - mtime <= 7776000000 ->
   d_score (decay host r) == score r * 0.5) /\
  (7776000000 < Date_now host - mtime -> d_score (decay host r) == score r * 0.2).
Proof.
  intros H.
  assert (Hage : ageInDays (decay host r) * 86400000 == Date_now host - mtime).
  { unfold decay, getFileAgeInDays. rewrite H. simpl. field. }
  split; [exact Hage|].
  destruct (decay_fields host r) as (Hraw & _ & Hf & Hs & _).
  rewrite Hs, Hf, Hraw.
  destruct (getDecayFactor_cases (ageInDays (decay host r)))
    as [[K ->]|[(K1 & K2 & ->)|[(K1 & K2 & ->)|[K ->]]]];
    repeat split; intros; try reflexivity; try ring; exfalso; lra.
Qed.

Lemma file_age_buckets_witness :
  ageInDays (decay Demo.host Demo.old_hit) * 86400000
    == Date_now Demo.host - (Demo.now - 100 * Demo.day) /\
  d_score (decay Demo.host Demo.old_hit) == score Demo.old_hit * 0.2 /\
  d_score (decay Demo.host Demo.new_hit) == score Demo.new_hit.
Proof.
  repeat apply conj.
  - destruct (file_age_buckets Demo.host Demo.old_hit (Demo.now - 100 * Demo.day))
      as (H & _); [reflexivity|exact H].
  - destruct (file_age_buckets Demo.host Demo.old_hit (Demo.now - 100 * Demo.day))
      as (_ & _ & _ & _ & H); [reflexivity|]. apply H. reflexivity.
  - destruct (file_age_buckets Demo.host Demo.new_hit (Demo.now - 2 * Demo.day))
      as (_ & H & _); [reflexivity|]. apply H. discriminate.
Defined.

(** ** What decay leaves alone *)

(** [applyDecay] yields one result per hit, in the same order, and changes
    nothing but the score: locator, line range, snippet and source tag pass
    through, and the raw score is kept beside the decayed one. *)
Lemma applyDecay_passes_fields (host : Host) (rs : list SearchResult) :
  List.length (applyDecay host rs) = List.length rs /\
  map d_path (applyDecay host rs) = map path rs /\
  map d_startLine (applyDecay host rs) = map startLine rs /\
  map d_endLine (applyDecay host rs) = map endLine rs /\
  map d_snippet (applyDecay host rs) = map snippet rs /\
  map d_source (applyDecay host rs) = map source rs /\
  map rawScore (applyDecay host rs) = map score rs.
Proof.
  unfold applyDecay. rewrite length_map, !map_map. repeat apply conj; reflexivity.
Qed.

(** ** The selection keeps the best candidates *)

Section SortPermutation.

Context {A : Type}.
Variable cmp : A -> A -> Q.

Lemma insert_length (x : A) (xs : list A) :
  List.length (JS.insert cmp x xs) = S (List.length xs).
Proof.
  induction xs as [|y rest IH]; simpl; [reflexivity|].
  destruct (JS.ltb 0 (cmp x y)); simpl; congruence.
Qed.

Lemma sort_length (xs : list A) : List.length (JS.sort cmp xs) = List.length xs.
Proof.
  induction xs as [|x rest IH]; simpl; [reflexivity|].
  rewrite insert_length, IH. reflexivity.
Qed.

Lemma insert_perm (x : A) (xs : list A) :
  Permutation (JS.insert cmp x xs) (x :: xs).
Proof.
  induction xs as [|y rest IH]; simpl; [reflexivity|].
  destruct (JS.ltb 0 (cmp x y)); [|reflexivity].
  rewrite IH. apply perm_swap.
Qed.

(** Sorting neither loses nor invents elements, whatever the comparator. *)
Lemma sort_perm (xs : list A) : Permutation (JS.sort cmp xs) xs.
Proof.
  induction xs as [|x rest IH]; simpl; [reflexivity|].
  rewrite insert_perm, IH. reflexivity.
Qed.

End SortPermutation.

Lemma sorted_app_order {A : Type} (R : A -> A -> Prop) (xs ys : list A) :
  StronglySorted R (xs ++ ys) ->
  forall x y, In x xs -> In y ys -> R x y.
Proof.
  induction xs as [|a rest IH]; simpl; intros Hs x y Hx Hy; [destruct Hx|].
  inversion Hs as [|? ? Hrest Hall]; subst.
  destruct Hx as [->|Hx].
  - rewrite Forall_forall in Hall. apply Hall, in_or_app. auto.
  - apply IH; assumption.
Qed.

Lemma slice_to_count {A : Type} (xs : list A) (n : Q) :
  0 <= n ->
  JS.slice_to xs n = firstn (Z.to_nat (JS.ToInteger n)) xs.
Proof.
  intros Hn. destruct (ToInteger_le n Hn) as [H0 _].
  unfold JS.slice_to.
  destruct (Z.ltb_spec (JS.ToInteger n) 0) as [Hneg|_]; [lia|].
  destruct (Z.le_ge_cases (JS.ToInteger n) (Z.of_nat (List.length xs))) as [H|H].
  - rewrite Z.min_l by exact H. reflexivity.
  - rewrite Z.min_r by exact H. rewrite Nat2Z.id.
    rewrite firstn_all. symmetry. apply firstn_all2. lia.
Qed.

(** When the backend answers, the results are the candidates with the highest
    decayed scores: results and dropped candidates together are the
    candidates, no dropped one has a higher score than a result, and the
    number of results is the whole part of [maxResults] or, if there are
    fewer candidates, their number. *)
Theorem searchSessions_keeps_the_best
  (host : Host) (raw : RawConfig) (cfg : SessionRecallConfig)
  (query out block : string) (response : SearchResponse) :
  sessionRecallConfigSchema raw = Some cfg ->
  execSync host (command_line host query cfg) = Stdout out ->
  JS.match_braces out = Some block ->
  JSON_parse host block = Normal response ->
  exists dropped,
    Permutation (value (searchSessions host query cfg) ++ dropped)
                (candidates host cfg response) /\
    (forall x y, In x (value (searchSessions host query cfg)) -> In y dropped ->
                 d_score y <= d_score x) /\
    List.length (value (searchSessions host query cfg))
    = Nat.min (Z.to_nat (JS.ToInteger (maxResults cfg)))
              (List.length (candidates host cfg response)).
Proof.
  intros Hcfg Hx Hm Hp.
  destruct (schema_bounds raw cfg Hcfg) as (Hmax & _).
  assert (E : value (searchSessions host query cfg)
              = firstn (Z.to_nat (JS.ToInteger (maxResults cfg)))
                  (JS.sort by_score_desc (candidates host cfg response))).
  { unfold searchSessions, searchSessions_try, value. simpl.
    rewrite Hx. simpl. rewrite Hm, Hp. simpl.
    unfold rank. apply slice_to_count. lra. }
  rewrite E.
  exists (skipn (Z.to_nat (JS.ToInteger (maxResults cfg)))
            (JS.sort by_score_desc (candidates host cfg response))).
  split; [|split].
  - rewrite firstn_skipn. apply sort_perm.
  - intros x y Hin Hout.
    refine (sorted_app_order (JS.descending d_score) _ _ _ x y Hin Hout).
    rewrite firstn_skipn.
    apply (sort_sorted d_score by_score_desc by_score_desc_key).
  - rewrite length_firstn, sort_length. reflexivity.
Qed.

Lemma searchSessions_keeps_the_best_witness :
  exists dropped,
    Permutation (value (searchSessions Demo.host "billing alarms" Demo.cfg) ++ dropped)
                (candidates Demo.host Demo.cfg Demo.response) /\
    (forall x y, In x (value (searchSessions Demo.host "billing alarms" Demo.cfg)) ->
                 In y dropped -> d_score y <= d_score x) /\
    List.length (value (searchSessions Demo.host "billing alarms" Demo.cfg))
    = Nat.min (Z.to_nat (JS.ToInteger (maxResults Demo.cfg)))
              (List.length (candidates Demo.host Demo.cfg Demo.response)).
Proof.
  apply (searchSessions_keeps_the_best Demo.host Demo.no_config Demo.cfg
           "billing alarms"
           ("[plugins] 3 loaded" ++ newline ++ Demo.payload ++ newline)
           Demo.payload Demo.response); reflexivity.
Defined.

Example cap_demo :
  map d_path
    (value (searchSessions Demo.host "billing alarms"
              {| enabled := true; maxResults := 1.9; minScore := 0.1;
                 minPromptLength := 10; agentId := "main" |}))
  = ["sessions/new.jsonl"].
Proof. vm_compute. reflexivity. Qed.

(** ** How old a result can be *)

(** A result whose raw score is at most 1 has a decay factor of at least
    [minScore]: with a threshold above 0.2 nothing older than 90 days is
    returned, with one above 0.5 nothing older than 30 days, and with one
    above 0.8 nothing older than 7 days. *)
Theorem old_sessions_need_low_threshold
  (host : Host) (cfg : SessionRecallConfig) (query : string) (d : DecayedResult) :
  In d (value (searchSessions host query cfg)) ->
  rawScore d <= 1 ->
  minScore cfg <= decayFactor d /\
  (0.2 < minScore cfg -> ageInDays d <= 90) /\
  (0.5 < minScore cfg -> ageInDays d <= 30) /\
  (0.8 < minScore cfg -> ageInDays d <= 7).
Proof.
  intros Hin Hraw.
  destruct (searchSessions_value host cfg query)
    as [E|(out & block & response & _ & _ & _ & E)]; rewrite E in Hin.
  { destruct Hin. }
  destruct (rank_In host cfg response d Hin) as (r & _ & _ & -> & Hd).
  destruct (decay_fields host r) as (Hr & _ & Hf & Hs & _).
  rewrite Hs, Hf in Hd. rewrite Hf. rewrite Hr in *.
  destruct (getDecayFactor_cases (ageInDays (decay host r)))
    as [[K E1]|[(K1 & K2 & E1)|[(K1 & K2 & E1)|[K E1]]]];
    rewrite E1 in *; repeat split; intros; try nra; try lra.
Qed.

Lemma old_sessions_need_low_threshold_witness :
  minScore Demo.cfg <= decayFactor (decay Demo.host Demo.new_hit) /\
  (0.2 < minScore Demo.cfg -> ageInDays (decay Demo.host Demo.new_hit) <= 90) /\
  (0.5 < minScore Demo.cfg -> ageInDays (decay Demo.host Demo.new_hit) <= 30) /\
  (0.8 < minScore Demo.cfg -> ageInDays (decay Demo.host Demo.new_hit) <= 7).
Proof.
  apply (old_sessions_need_low_threshold Demo.host Demo.cfg "billing alarms").
  - left. reflexivity.
  - discriminate.
Defined.

(** ** The payload inside the output *)

Lemma append_assoc (a b c : string) : (a ++ b) ++ c = a ++ b ++ c.
Proof. induction a as [|x a IH]; simpl; [reflexivity|]. rewrite IH. reflexivity. Qed.

Lemma append_empty (a : string) : a ++ EmptyString = a.
Proof. induction a as [|x a IH]; simpl; [reflexivity|]. rewrite IH. reflexivity. Qed.

Lemma upto_last_brace_none (s : string) :
  JS.upto_last_brace s = None <-> has_char "}" s = false.
Proof.
  induction s as [|c s IH]; simpl; [tauto|].
  destruct (JS.upto_last_brace s) as [t|].
  - split; [discriminate|]. intros H. apply orb_false_iff in H.
    destruct H as [_ H]. apply IH in H. discriminate.
  - destruct (Ascii.eqb c "}"); simpl.
    + split; discriminate.
    + split; intros _; [apply IH|]; reflexivity.
Qed.

Lemma upto_last_brace_spec (s t : string) :
  JS.upto_last_brace s = Some t <->
  exists body post, t = body ++ "}" /\ s = t ++ post /\ has_char "}" post = false.
Proof.
  split.
  - revert t. induction s as [|c s IH]; intros t; simpl; [discriminate|].
    destruct (JS.upto_last_brace s) as [u|] eqn:Eu.
    + intros [= <-]. destruct (IH u eq_refl) as (body & post & -> & Hs & Hpost).
      exists (String c body), post. simpl. repeat split; [congruence|exact Hpost].
    + destruct (Ascii.eqb_spec c "}") as [->|_]; [|discriminate].
      intros [= <-]. exists EmptyString, s. simpl. repeat split.
      apply upto_last_brace_none, Eu.
  - intros (body & post & -> & -> & Hpost).
    apply upto_last_brace_none in Hpost.
    induction body as [|c body IH]; simpl.
    + rewrite Hpost. reflexivity.
    + simpl in IH. rewrite IH. reflexivity.
Qed.

Lemma match_braces_skip (pre s : string) :
  has_char "{" pre = false -> JS.match_braces (pre ++ s) = JS.match_braces s.
Proof.
  induction pre as [|c pre IH]; simpl; [reflexivity|].
  intros H. apply orb_false_iff in H. destruct H as [Hc H].
  rewrite Hc. apply IH, H.
Qed.

Lemma match_braces_found (pre body post : string) :
  has_char "{" pre = false ->
  has_char "}" post = false ->
  JS.match_braces (pre ++ ("{" ++ body ++ "}") ++ post) = Some ("{" ++ body ++ "}").
Proof.
  intros Hpre Hpost.
  rewrite match_braces_skip by exact Hpre.
  simpl.
  assert (E : JS.upto_last_brace ((body ++ "}") ++ post) = Some (body ++ "}")).
  { apply upto_last_brace_spec. exists body, post. auto. }
  rewrite E. reflexivity.
Qed.

(** What the pattern of [searchSessions] takes out of the output: the text
    from the first opening brace to the last closing brace.  There is a match
    exactly when the output splits into a part without an opening brace, a
    text in braces and a part without a closing brace, and the match is that
    text. *)
Theorem match_braces_spec (output block : string) :
  JS.match_braces output = Some block <->
  exists pre body post,
    output = pre ++ block ++ post /\
    block = "{" ++ body ++ "}" /\
    has_char "{" pre = false /\
    has_char "}" post = false.
Proof.
  split.
  - revert block. induction output as [|c s IH]; intros block; simpl; [discriminate|].
    destruct (Ascii.eqb_spec c "{") as [->|Hc].
    + destruct (JS.upto_last_brace s) as [t|] eqn:Et; [|discriminate].
      intros [= <-].
      apply upto_last_brace_spec in Et.
      destruct Et as (body & post & -> & -> & Hpost).
      exists EmptyString, body, post. simpl. auto.
    + intros H. destruct (IH block H) as (pre & body & post & -> & Hb & Hpre & Hpost).
      exists (String c pre), body, post. simpl.
      repeat split; auto.
      apply Ascii.eqb_neq in Hc. rewrite Hc. exact Hpre.
  - intros (pre & body & post & -> & -> & Hpre & Hpost).
    apply match_braces_found; assumption.
Qed.

(** Text around the payload does no harm as long as no opening brace comes
    before it and no closing brace after it: the payload alone is parsed, and
    its response is ranked. *)
Theorem searchSessions_tolerates_noise
  (host : Host) (cfg : SessionRecallConfig) (query pre body post : string)
  (response : SearchResponse) :
  execSync host (command_line host query cfg)
    = Stdout (pre ++ ("{" ++ body ++ "}") ++ post) ->
  has_char "{" pre = false ->
  has_char "}" post = false ->
  JSON_parse host ("{" ++ body ++ "}") = Normal response ->
  value (searchSessions host query cfg) = rank host cfg response.
Proof.
  intros Hx Hpre Hpost Hp.
  assert (Hm : JS.match_braces (pre ++ ("{" ++ body ++ "}") ++ post)
               = Some ("{" ++ body ++ "}")).
  { apply match_braces_found; assumption. }
  unfold searchSessions, searchSessions_try, value. simpl fst.
  rewrite Hx. unfold bind. rewrite Hm, Hp. reflexivity.
Qed.

Lemma searchSessions_tolerates_noise_witness :
  value (searchSessions Demo.host "billing alarms" Demo.cfg)
  = rank Demo.host Demo.cfg Demo.response.
Proof.
  apply (searchSessions_tolerates_noise Demo.host Demo.cfg "billing alarms"
           ("[plugins] 3 loaded" ++ newline) "payload" newline Demo.response);
    reflexivity.
Defined.

(** A closing brace after the payload is made part of the match, and the
    answer of the backend is lost when the longer text does not parse. *)
Theorem searchSessions_trailing_brace
  (host : Host) (cfg : SessionRecallConfig) (query pre payload tail : string) :
  execSync host (command_line host query cfg)
    = Stdout (pre ++ "{" ++ payload ++ tail ++ "}") ->
  has_char "{" pre = false ->
  JSON_parse host ("{" ++ payload ++ tail ++ "}") = Thrown ->
  value (searchSessions host query cfg) = [].
Proof.
  intros Hx Hpre Hp.
  assert (Hm : JS.match_braces (pre ++ "{" ++ payload ++ tail ++ "}")
               = Some ("{" ++ payload ++ tail ++ "}")).
  { pose proof (match_braces_found pre (payload ++ tail) EmptyString Hpre eq_refl) as H.
    rewrite append_empty, append_assoc in H. exact H. }
  unfold searchSessions, searchSessions_try, value. simpl fst.
  rewrite Hx. unfold bind. rewrite Hm, Hp. reflexivity.
Qed.

Lemma searchSessions_trailing_brace_witness :
  value (searchSessions
           (Demo.host_with (Stdout ("note " ++ "{" ++ "payload}" ++ " done " ++ "}")))
           "billing alarms" Demo.cfg) = [].
Proof.
  apply (searchSessions_trailing_brace
           (Demo.host_with (Stdout ("note " ++ "{" ++ "payload}" ++ " done " ++ "}")))
           Demo.cfg "billing alarms" "note " "payload}" " done "); reflexivity.
Defined.

(** ** The command as the shell reads it *)

Lemma is_plain_ordinary (c : ascii) :
  Sh.is_plain c = true ->
  Sh.is_blank c = false /\ Ascii.eqb c "'" = false /\ Ascii.eqb c "\" = false /\
  Ascii.eqb c "#" = false /\ Ascii.eqb c ">" = false /\
  (nat_of_ascii c =? 10)%nat = false.
Proof.
  destruct c as [[] [] [] [] [] [] [] []]; vm_compute; intros H;
    first [discriminate H | repeat split].
Qed.

(** A quotation that holds the escaped query reads as the query. *)
Lemma lex_quoted (q rest : string) (k : option string) (w : string) :
  Sh.lex (JS.replace_quotes q "'\''" ++ String "'" rest) (Sh.InQuote k w)
  = Sh.lex rest (Sh.InWord k false (w ++ q)).
Proof.
  revert w. induction q as [|c q IH]; intros w.
  - cbn. rewrite append_empty. reflexivity.
  - cbn [JS.replace_quotes].
    destruct (Ascii.eqb_spec c "'") as [->|Hc].
    + cbn. rewrite IH. unfold Sh.snoc. rewrite append_assoc. reflexivity.
    + cbn [append Sh.lex]. apply Ascii.eqb_neq in Hc. rewrite Hc.
      rewrite IH. unfold Sh.snoc. rewrite append_assoc. reflexivity.
Qed.



Lemma lex_comment_plain (u rest : string) :
  Sh.all_plain u = true -> Sh.lex (u ++ rest) Sh.Comment = Sh.lex rest Sh.Comment.
Proof.
  induction u as [|c u IH]; intros Hu; [reflexivity|].
  cbn [Sh.all_plain] in Hu. apply andb_true_iff in Hu. destruct Hu as [Hc Hu].
  destruct (is_plain_ordinary c Hc) as (_ & _ & _ & _ & _ & H6).
  cbn [append Sh.lex]. rewrite H6. apply IH, Hu.
Qed.

(** The text of the command, piece by piece. *)
Lemma command_line_text (host : Host) (query : string) (cfg : SessionRecallConfig) :
  command_line host query cfg
  = "openclaw memory search '" ++ JS.replace_quotes query "'\''"
    ++ "' --agent " ++ agentId cfg
    ++ " --max-results " ++ String_of_number host (maxResults cfg * 3)
    ++ " --min-score " ++ String_of_number host (minScore cfg * 0.5)
    ++ " --json 2>/dev/null".
Proof.
  unfold command_line, command_words. cbn [JS.join].
  repeat (rewrite ?append_assoc; cbn [append]; try f_equal).
Qed.

(** The fixed words of the command. *)
Lemma lex_head (x : string) :
  Sh.lex ("openclaw memory search '" ++ x) (Sh.Between None)
  = Sh.emit None "openclaw" (Sh.emit None "memory" (Sh.emit None "search"
      (Sh.lex x (Sh.InQuote None EmptyString)))).
Proof. vm_compute. reflexivity. Qed.

Lemma lex_agent_flag (x w : string) :
  Sh.lex (" --agent " ++ x) (Sh.InWord None false w)
  = Sh.emit None w (Sh.emit None "--agent" (Sh.lex x (Sh.Between None))).
Proof. vm_compute. reflexivity. Qed.




Lemma lex_remark (x : string) :
  Sh.lex ("main # --max-results " ++ x) (Sh.Between None)
  = Sh.emit None "main" (Sh.lex x Sh.Comment).
Proof. vm_compute. reflexivity. Qed.

Lemma lex_comment_min_flag (x : string) :
  Sh.lex (" --min-score " ++ x) Sh.Comment = Sh.lex x Sh.Comment.
Proof. vm_compute. reflexivity. Qed.

Lemma lex_comment_tail : Sh.lex " --json 2>/dev/null" Sh.Comment = Some [].
Proof. vm_compute. reflexivity. Qed.

(** C8: [searchSessions] puts the text of [maxResults * 3] after
    "--max-results" and the text of [minScore * 0.5] after "--min-score", but
    it puts [agentId] into the command without quoting it, unlike the query.
    With the agent name "main #", which the schema accepts, the shell takes
    the rest of the line for a comment: the search gets the query and the
    agent and neither of the two numbers (nor the redirection). *)
Theorem searchSessions_request_cut_by_comment
  (host : Host) (cfg : SessionRecallConfig) (query : string) :
  agentId cfg = "main #" ->
  Sh.all_plain (String_of_number host (maxResults cfg * 3)) = true ->
  Sh.all_plain (String_of_number host (minScore cfg * 0.5)) = true ->
  calls (searchSessions host query cfg) = [command_line host query cfg] /\
  (exists before after,
      command_line host query cfg
      = before ++ "--max-results " ++ String_of_number host (maxResults cfg * 3)
        ++ " --min-score " ++ String_of_number host (minScore cfg * 0.5) ++ after) /\
  Sh.parse (command_line host query cfg)
  = Some [Sh.Arg "openclaw"; Sh.Arg "memory"; Sh.Arg "search"; Sh.Arg query;
          Sh.Arg "--agent"; Sh.Arg "main"].
Proof.
  intros Hagent Hmax Hmin.
  split; [reflexivity|]. split.
  - rewrite command_line_text, Hagent.
    exists ("openclaw memory search '" ++ JS.replace_quotes query "'\''"
            ++ "' --agent main # "), " --json 2>/dev/null".
    rewrite !append_assoc. reflexivity.
  - unfold Sh.parse. rewrite command_line_text, Hagent.
    rewrite lex_head.
    change ("' --agent " ++ "main #" ++ " --max-results " ++ ?x)
      with (String "'" (" --agent " ++ "main # --max-results " ++ x)).
    rewrite lex_quoted, lex_agent_flag, lex_remark.
    rewrite lex_comment_plain by exact Hmax.
    rewrite lex_comment_min_flag.
    rewrite lex_comment_plain by exact Hmin.
    rewrite lex_comment_tail. reflexivity.
Qed.

Lemma searchSessions_request_cut_by_comment_witness :
  sessionRecallConfigSchema Demo.remark = Some Demo.cfg_remark /\
  calls (searchSessions Demo.host "billing alarms" Demo.cfg_remark)
  = [command_line Demo.host "billing alarms" Demo.cfg_remark] /\
  (exists before after,
      command_line Demo.host "billing alarms" Demo.cfg_remark
      = before ++ "--max-results "
        ++ String_of_number Demo.host (maxResults Demo.cfg_remark * 3)
        ++ " --min-score "
        ++ String_of_number Demo.host (minScore Demo.cfg_remark * 0.5) ++ after) /\
  Sh.parse (command_line Demo.host "billing alarms" Demo.cfg_remark)
  = Some [Sh.Arg "openclaw"; Sh.Arg "memory"; Sh.Arg "search";
          Sh.Arg "billing alarms"; Sh.Arg "--agent"; Sh.Arg "main"].
Proof.
  split; [reflexivity|].
  apply (searchSessions_request_cut_by_comment Demo.host Demo.cfg_remark
           "billing alarms"); reflexivity.
Defined.

Example remark_command :
  command_line Demo.host "billing alarms" Demo.cfg_remark
  = "openclaw memory search 'billing alarms' --agent main # --max-results 15 --min-score 0.25 --json 2>/dev/null".
Proof. vm_compute. reflexivity. Qed.



Example unquoted_agent_examples :
  Sh.parse (command_line Demo.host "q"
              {| enabled := true; maxResults := 5; minScore := 0.5;
                 minPromptLength := 10; agentId := EmptyString |})
  = Some [Sh.Arg "openclaw"; Sh.Arg "memory"; Sh.Arg "search"; Sh.Arg "q";
          Sh.Arg "--agent"; Sh.Arg "--max-results"; Sh.Arg "15";
          Sh.Arg "--min-score"; Sh.Arg "0.25"; Sh.Arg "--json";
          Sh.Redirect "2" "/dev/null"] /\
  Sh.parse (command_line Demo.host "q"
              {| enabled := true; maxResults := 5; minScore := 0.5;
                 minPromptLength := 10; agentId := "main; reboot" |})
  = None.
Proof. vm_compute. split; reflexivity. Qed.

(** ** The size of a snippet in the block *)

Lemma trimStart_clean (s : string) : JS.starts_white s = false -> JS.trimStart s = s.
Proof. destruct s as [|c s]; simpl; [reflexivity|]. intros ->. reflexivity. Qed.

Lemma last_char_none (s : string) : JS.last_char s = None -> s = EmptyString.
Proof.
  destruct s as [|c s]; simpl; [reflexivity|].
  destruct (JS.last_char s); discriminate.
Qed.

Lemma trimEnd_clean (s : string) : JS.ends_white s = false -> JS.trimEnd s = s.
Proof.
  unfold JS.ends_white. induction s as [|c s IH]; simpl; [reflexivity|].
  destruct (JS.last_char s) as [d|] eqn:El.
  - intros H. rewrite (IH H). destruct s; [discriminate El|reflexivity].
  - intros H. apply last_char_none in El. subst s. simpl. rewrite H. reflexivity.
Qed.

Lemma trim_clean (s : string) :
  JS.starts_white s = false -> JS.ends_white s = false -> JS.trim s = s.
Proof.
  intros Hs He. unfold JS.trim. rewrite (trimStart_clean s Hs). apply trimEnd_clean, He.
Qed.

Lemma last_char_app (a b : string) :
  b <> EmptyString -> JS.last_char (a ++ b) = JS.last_char b.
Proof.
  intros Hb. induction a as [|c a IH]; simpl; [reflexivity|].
  rewrite IH. destruct (JS.last_char b) eqn:E; [reflexivity|].
  apply last_char_none in E. contradiction.
Qed.

Lemma slice0_app (a b : string) : JS.slice0 (a ++ b) (String.length a) = a.
Proof.
  unfold JS.slice0. induction a as [|c a IH]; simpl.
  - destruct b; reflexivity.
  - rewrite IH. reflexivity.
Qed.

(** A cleaned snippet has at most 503 characters and at most two more than
    the snippet (a snippet of 501 characters grows to 503), has no white
    space at its start, and cleaning it again changes nothing. *)
Theorem clean_snippet_bounded (raw : string) :
  (String.length (clean_snippet raw) <= 503)%nat /\
  (String.length (clean_snippet raw) <= String.length raw + 2)%nat /\
  JS.starts_white (clean_snippet raw) = false /\
  clean_snippet (clean_snippet raw) = clean_snippet raw.
Proof.
  destruct (trim_spec raw) as (pre & post & Hraw & _ & _ & Hs & He).
  assert (Hlen : (String.length (JS.trim raw) <= String.length raw)%nat).
  { rewrite Hraw at 2. rewrite !length_append. lia. }
  assert (Hcases :
    ((500 < String.length (JS.trim raw))%nat /\
     clean_snippet raw = JS.slice0 (JS.trim raw) 500 ++ "...") \/
    ((String.length (JS.trim raw) <= 500)%nat /\ clean_snippet raw = JS.trim raw)).
  { unfold clean_snippet.
    destruct (Nat.ltb_spec 500 (String.length (JS.trim raw))); auto. }
  destruct Hcases as [[Hlong E]|[Hshort E]]; rewrite E.
  - destruct (slice0_prefix 500 (JS.trim raw)) as [Hk [rest Hrest]].
    assert (Hk' : String.length (JS.slice0 (JS.trim raw) 500) = 500%nat) by lia.
    assert (Hstart : JS.starts_white (JS.slice0 (JS.trim raw) 500 ++ "...") = false).
    { rewrite Hrest in Hs.
      destruct (JS.slice0 (JS.trim raw) 500); [discriminate Hk'|exact Hs]. }
    assert (Hend : JS.ends_white (JS.slice0 (JS.trim raw) 500 ++ "...") = false).
    { unfold JS.ends_white. rewrite last_char_app by discriminate. reflexivity. }
    pose proof (slice0_app (JS.slice0 (JS.trim raw) 500) "...") as Hagain.
    rewrite Hk' in Hagain.
    rewrite length_append, Hk'. simpl String.length.
    split; [lia|]. split; [lia|]. split; [exact Hstart|].
    unfold clean_snippet.
    rewrite (trim_clean _ Hstart Hend).
    rewrite length_append, Hk'. simpl String.length. simpl Nat.ltb.
    cbv iota. rewrite Hagain. reflexivity.
  - split; [lia|]. split; [lia|]. split; [exact Hs|].
    unfold clean_snippet. rewrite (trim_clean _ Hs He).
    destruct (Nat.ltb_spec 500 (String.length (JS.trim raw))); [lia|reflexivity].
Qed.

Example clean_snippet_grows :
  String.length (clean_snippet (Demo.copies 501 "x")) = 503%nat.
Proof. vm_compute. reflexivity. Qed.

(** ** The counts in the age labels *)

Lemma Math_round_between (x : Q) (lo hi : Z) :
  inject_Z lo <= x + (1 # 2) -> x + (1 # 2) < inject_Z (hi + 1) ->
  (lo <= JS.Math_round x <= hi)%Z.
Proof.
  intros Hlo Hhi. unfold JS.Math_round. split.
  - rewrite <- (Qfloor_Z lo) at 1. apply Qfloor_resp_le, Hlo.
  - pose proof (Qfloor_le (x + (1 # 2))) as Hle.
    assert (H : inject_Z (Qfloor (x + (1 # 2))) < inject_Z (hi + 1)) by lra.
    rewrite <- Zlt_Qlt in H. lia.
Qed.

(** The labels never count zero of a unit and never reach the next unit:
    days are counted from 2 to 7, weeks from 1 to 4, months from 1 to 12 and
    years from 1.  (An age of six and a half days reads "7d ago", one of 350
    days "12mo ago".) *)
Theorem formatAge_counts (d : Q) :
  (2 <= d -> d < 7 ->
   exists n, (2 <= n <= 7)%Z /\ formatAge d = JS.decimal n ++ "d ago") /\
  (7 <= d -> d < 30 ->
   exists n, (1 <= n <= 4)%Z /\ formatAge d = JS.decimal n ++ "w ago") /\
  (30 <= d -> d < 365 ->
   exists n, (1 <= n <= 12)%Z /\ formatAge d = JS.decimal n ++ "mo ago") /\
  (365 <= d ->
   exists n, (1 <= n)%Z /\ formatAge d = JS.decimal n ++ "y ago").
Proof.
  unfold formatAge.
  repeat apply conj; intros;
    repeat match goal with
           | |- context [JS.ltb d ?k] =>
               let E := fresh "E" in
               destruct (JS.ltb d k) eqn:E;
               [apply ltb_true in E | apply ltb_false in E]
           end;
    try (exfalso; lra).
  - exists (JS.Math_round d). split; [|reflexivity].
    apply Math_round_between; cbn [Z.add Pos.add Pos.succ]; unfold inject_Z; lra.
  - exists (JS.Math_round (d / 7)). split; [|reflexivity].
    assert (Hq : d / 7 * 7 == d) by field.
    set (q := d / 7) in *.
    apply Math_round_between; cbn [Z.add Pos.add Pos.succ]; unfold inject_Z; lra.
  - exists (JS.Math_round (d / 30)). split; [|reflexivity].
    assert (Hq : d / 30 * 30 == d) by field.
    set (q := d / 30) in *.
    apply Math_round_between; cbn [Z.add Pos.add Pos.succ]; unfold inject_Z; lra.
  - exists (JS.Math_round (d / 365)). split; [|reflexivity].
    assert (Hq : d / 365 * 365 == d) by field.
    set (q := d / 365) in *.
    unfold JS.Math_round.
    apply (Qfloor_resp_le 1 (q + (1 # 2))). lra.
Qed.

Lemma formatAge_counts_witness :
  (exists n, (2 <= n <= 7)%Z /\ formatAge 6.5 = JS.decimal n ++ "d ago") /\
  (exists n, (1 <= n <= 4)%Z /\ formatAge 29.9 = JS.decimal n ++ "w ago") /\
  (exists n, (1 <= n <= 12)%Z /\ formatAge 350 = JS.decimal n ++ "mo ago") /\
  (exists n, (1 <= n)%Z /\ formatAge 365 = JS.decimal n ++ "y ago").
Proof.
  repeat apply conj.
  - destruct (formatAge_counts 6.5) as (H & _). apply H; lra.
  - destruct (formatAge_counts 29.9) as (_ & H & _). apply H; lra.
  - destruct (formatAge_counts 350) as (_ & _ & H & _). apply H; lra.
  - destruct (formatAge_counts 365) as (_ & _ & _ & H). apply H; lra.
Defined.

Example formatAge_edges :
  map formatAge [6.5; 6.99; 29.9; 350; 364.9]
  = ["7d ago"; "7d ago"; "4w ago"; "12mo ago"; "12mo ago"].
Proof. vm_compute. reflexivity. Qed.

(** ** What the hook hands to the agent *)

(** The hook returns a context only when the prompt passed both tests of the
    gate and the search had a result, and the context is then the block of
    those results: the formatter never sees an empty list.  A search without
    a result gives no context.  One event issues at most one command, and its
    query is the prompt of the event as it came. *)
Theorem hook_injects_only_results
  (host : Host) (cfg : SessionRecallConfig) (event : Event) :
  (forall h : HookResult,
      value (before_agent_start host cfg event) = Some h ->
      exists p, prompt event = Some p /\
                too_short cfg event = false /\
                looks_internal p = false /\
                value (searchSessions host p cfg) <> [] /\
                prependContext h = formatContext (value (searchSessions host p cfg))) /\
  (forall p, prompt event = Some p ->
             value (searchSessions host p cfg) = [] ->
             value (before_agent_start host cfg event) = None) /\
  (List.length (calls (before_agent_start host cfg event)) <= 1)%nat /\
  (forall c, In c (calls (before_agent_start host cfg event)) ->
             exists p, prompt event = Some p /\ c = command_line host p cfg).
Proof.
  unfold before_agent_start.
  destruct (prompt event) as [p|] eqn:Ep.
  2:{ repeat apply conj.
      - intros h. discriminate.
      - reflexivity.
      - simpl. lia.
      - intros c []. }
  destruct (too_short cfg event) eqn:Et.
  { repeat apply conj.
    - intros h. discriminate.
    - reflexivity.
    - simpl. lia.
    - intros c []. }
  destruct (looks_internal p) eqn:El.
  { repeat apply conj.
    - intros h. discriminate.
    - reflexivity.
    - simpl. lia.
    - intros c []. }
  pose proof (eq_refl : calls (searchSessions host p cfg)
                        = [command_line host p cfg]) as Hc.
  destruct (searchSessions host p cfg) as [rs issued] eqn:E.
  unfold calls in Hc. simpl in Hc. subst issued.
  destruct rs as [|r rest]; cbn [List.length Nat.eqb value calls fst snd].
  - repeat apply conj.
    + intros h. discriminate.
    + reflexivity.
    + simpl. lia.
    + intros c [<-|[]]. eauto.
  - repeat apply conj.
    + intros h [= <-]. exists p. rewrite E. simpl. repeat split; auto. discriminate.
    + intros q [= <-] H. rewrite E in H. discriminate H.
    + simpl. lia.
    + intros c [<-|[]]. eauto.
Qed.

Lemma hook_injects_only_results_witness :
  exists p,
    prompt {| prompt := Some "billing alarms" |} = Some p /\
    too_short Demo.cfg {| prompt := Some "billing alarms" |} = false /\
    looks_internal p = false /\
    value (searchSessions Demo.host p Demo.cfg) <> [] /\
    formatContext (value (searchSessions Demo.host "billing alarms" Demo.cfg))
    = formatContext (value (searchSessions Demo.host p Demo.cfg)).
Proof.
  destruct (hook_injects_only_results Demo.host Demo.cfg
              {| prompt := Some "billing alarms" |}) as (H & _).
  apply (H {| prependContext :=
                formatContext (value (searchSessions Demo.host "billing alarms" Demo.cfg)) |}).
  vm_compute. reflexivity.
Defined.

(** ** Markers in any letter case *)

Lemma toLowerCase_app (a b : string) :
  JS.toLowerCase (a ++ b) = JS.toLowerCase a ++ JS.toLowerCase b.
Proof. induction a as [|c a IH]; simpl; [reflexivity|]. rewrite IH. reflexivity. Qed.

(** A prompt that holds "heartbeat" anywhere, or starts with "[system", in
    any mix of upper and lower case is skipped without a search, whatever
    else it says and however long it is. *)
Theorem gate_ignores_letter_case
  (host : Host) (cfg : SessionRecallConfig) (pre marker post : string) :
  (JS.toLowerCase marker = "heartbeat" ->
   before_agent_start host cfg {| prompt := Some (pre ++ marker ++ post) |}
   = (None, [])) /\
  (JS.toLowerCase marker = "[system" ->
   before_agent_start host cfg {| prompt := Some (marker ++ post) |} = (None, [])).
Proof.
  split; intros Hm.
  - destruct (hook_gate host cfg {| prompt := Some (pre ++ marker ++ post) |})
      as [[_ H]|[(p & _ & _ & _ & H)|(p & Ep & _ & El & _)]]; try exact H.
    simpl in Ep. injection Ep as <-.
    assert (looks_internal (pre ++ marker ++ post) = true); [|congruence].
    apply looks_internal_iff. left.
    exists (JS.toLowerCase pre), (JS.toLowerCase post).
    rewrite !toLowerCase_app, Hm. reflexivity.
  - destruct (hook_gate host cfg {| prompt := Some (marker ++ post) |})
      as [[_ H]|[(p & _ & _ & _ & H)|(p & Ep & _ & El & _)]]; try exact H.
    simpl in Ep. injection Ep as <-.
    assert (looks_internal (marker ++ post) = true); [|congruence].
    apply looks_internal_iff. right.
    exists (JS.toLowerCase post).
    rewrite toLowerCase_app, Hm. reflexivity.
Qed.

Lemma gate_ignores_letter_case_witness :
  before_agent_start Demo.host Demo.cfg
    {| prompt := Some ("why did my " ++ "HeartBeat" ++ " monitor page me last night?") |}
  = (None, []) /\
  before_agent_start Demo.host Demo.cfg
    {| prompt := Some ("[SYSTEM" ++ "] nightly wake-up of the billing agent") |}
  = (None, []).
Proof.
  split.
  - destruct (gate_ignores_letter_case Demo.host Demo.cfg
                "why did my " "HeartBeat" " monitor page me last night?") as [H _].
    apply H. reflexivity.
  - destruct (gate_ignores_letter_case Demo.host Demo.cfg
                EmptyString "[SYSTEM" "] nightly wake-up of the billing agent") as [_ H].
    apply H. reflexivity.
Defined.

(** ** Registration *)

Lemma in_range_iff (lo hi x : Q) : in_range lo hi x = true <-> lo <= x /\ x <= hi.
Proof. unfold in_range. rewrite andb_true_iff, !Qle_bool_iff. reflexivity. Qed.

(** For a configuration whose given fields have the declared types: the
    schema rejects it only for a [maxResults] outside [1, 20] or a [minScore]
    outside [0, 1] that it was given, so a missing field never fails and no
    boolean, number or string in the other three fields does; an accepted
    configuration holds each given value and the default 5, 0.5, 10, "main"
    or true for each missing one.  [register] raises exactly when the schema
    rejects, and it installs no hook exactly when an accepted configuration
    sets [enabled] to false. *)
Theorem register_outcomes (host : Host) (raw : RawConfig) :
  ((exists cfg, sessionRecallConfigSchema raw = Some cfg) <->
   (forall m, raw_maxResults raw = Some m -> 1 <= m /\ m <= 20) /\
   (forall s, raw_minScore raw = Some s -> 0 <= s /\ s <= 1)) /\
  (forall cfg, sessionRecallConfigSchema raw = Some cfg ->
     enabled cfg = with_default true (raw_enabled raw) /\
     maxResults cfg = with_default 5 (raw_maxResults raw) /\
     minScore cfg = with_default 0.5 (raw_minScore raw) /\
     minPromptLength cfg = with_default 10 (raw_minPromptLength raw) /\
     agentId cfg = with_default "main" (raw_agentId raw)) /\
  (register host (Some raw) = Thrown <-> sessionRecallConfigSchema raw = None) /\
  (register host (Some raw) = Normal None <->
   (exists cfg, sessionRecallConfigSchema raw = Some cfg) /\
   raw_enabled raw = Some false) /\
  (forall cfg, sessionRecallConfigSchema raw = Some cfg ->
               raw_enabled raw <> Some false ->
               enabled cfg = true /\
               exists hook, register host (Some raw) = Normal (Some hook) /\
                            forall event, hook event = before_agent_start host cfg event).
Proof.
  split; [|split; [|split; [|split]]].
  2:{ intros cfg E. unfold sessionRecallConfigSchema in E.
      match type of E with (if ?b then _ else _) = _ => destruct b end;
        [|discriminate].
      injection E as <-. repeat split. }
  - unfold sessionRecallConfigSchema. cbn [maxResults minScore].
    destruct (in_range 1 20 (with_default 5 (raw_maxResults raw))) eqn:Em;
      destruct (in_range 0 1 (with_default 0.5 (raw_minScore raw))) eqn:Es;
      cbn [andb].
    + apply in_range_iff in Em, Es. split; [|eauto].
      intros _. split; intros x Hx; rewrite Hx in *; simpl in *; tauto.
    + split; [intros [cfg H]; discriminate|]. intros [_ H]. exfalso.
      destruct (raw_minScore raw) as [s|]; simpl in Es; [|discriminate].
      specialize (H s eq_refl). apply in_range_iff in H. congruence.
    + split; [intros [cfg H]; discriminate|]. intros [H _]. exfalso.
      destruct (raw_maxResults raw) as [m|]; simpl in Em; [|discriminate].
      specialize (H m eq_refl). apply in_range_iff in H. congruence.
    + split; [intros [cfg H]; discriminate|]. intros [H _]. exfalso.
      destruct (raw_maxResults raw) as [m|]; simpl in Em; [|discriminate].
      specialize (H m eq_refl). apply in_range_iff in H. congruence.
  - unfold register. cbn [with_default].
    destruct (sessionRecallConfigSchema raw) as [cfg|].
    + destruct (negb (enabled cfg)); split; discriminate.
    + split; reflexivity.
  - unfold register. cbn [with_default].
    destruct (sessionRecallConfigSchema raw) as [cfg|] eqn:E.
    + assert (He : enabled cfg = with_default true (raw_enabled raw)).
      { unfold sessionRecallConfigSchema in E.
        match type of E with (if ?b then _ else _) = _ => destruct b end;
          [|discriminate].
        injection E as <-. reflexivity. }
      rewrite He. destruct (raw_enabled raw) as [[|]|]; simpl.
      * split; [discriminate|]. intros [_ H]. discriminate.
      * split; eauto.
      * split; [discriminate|]. intros [_ H]. discriminate.
    + split; [discriminate|]. intros [[cfg H] _]. discriminate.
  - intros cfg E Hen. unfold register. cbn [with_default]. rewrite E.
    assert (He : enabled cfg = with_default true (raw_enabled raw)).
    { unfold sessionRecallConfigSchema in E.
      match type of E with (if ?b then _ else _) = _ => destruct b end;
        [|discriminate].
      injection E as <-. reflexivity. }
    assert (Ht : enabled cfg = true).
    { rewrite He. destruct (raw_enabled raw) as [[|]|]; simpl; congruence. }
    rewrite Ht. split; [reflexivity|]. simpl. eauto.
Qed.

Lemma register_outcomes_witness :
  enabled Demo.cfg = true /\
  exists hook, register Demo.host (Some Demo.no_config) = Normal (Some hook) /\
               forall event, hook event = before_agent_start Demo.host Demo.cfg event.
Proof.
  destruct (register_outcomes Demo.host Demo.no_config) as (_ & _ & _ & _ & H).
  apply H.
  - reflexivity.
  - discriminate.
Defined.

Example register_examples :
  register Demo.host None = register Demo.host (Some Demo.no_config) /\
  register Demo.host
    (Some {| raw_enabled := None; raw_maxResults := Some 21; raw_minScore := None;
             raw_minPromptLength := None; raw_agentId := None |}) = Thrown /\
  register Demo.host
    (Some {| raw_enabled := Some false; raw_maxResults := None; raw_minScore := None;
             raw_minPromptLength := Some (-3); raw_agentId := None |}) = Normal None.
Proof. repeat apply conj; reflexivity. Qed.

(** ** The percentage in a header *)

(** The percentage that [formatContext] prints for a returned result lies
    between the rounded percentage of [minScore] and 100, provided the raw
    score of the hit is at most 1. *)
Theorem score_percent_range
  (host : Host) (raw : RawConfig) (cfg : SessionRecallConfig) (query : string)
  (d : DecayedResult) :
  sessionRecallConfigSchema raw = Some cfg ->
  In d (value (searchSessions host query cfg)) ->
  rawScore d <= 1 ->
  (0 <= JS.Math_round (minScore cfg * 100))%Z /\
  (JS.Math_round (minScore cfg * 100) <= JS.Math_round (d_score d * 100))%Z /\
  (JS.Math_round (d_score d * 100) <= 100)%Z.
Proof.
  intros Hcfg Hin Hraw.
  destruct (schema_bounds raw cfg Hcfg) as (_ & _ & Hmin & _).
  destruct (searchSessions_value host cfg query)
    as [E|(out & block & response & _ & _ & _ & E)]; rewrite E in Hin.
  { destruct Hin. }
  destruct (rank_In host cfg response d Hin) as (r & _ & _ & -> & Hd).
  destruct (decay_fields host r) as (Hr & _ & Hf & Hs & _).
  assert (Hup : d_score (decay host r) <= 1).
  { rewrite Hs, Hf in Hd |- *. rewrite Hr in *.
    destruct (getDecayFactor_cases (ageInDays (decay host r)))
      as [[K E1]|[(K1 & K2 & E1)|[(K1 & K2 & E1)|[K E1]]]];
      rewrite E1 in *; nra. }
  split; [|split].
  - unfold JS.Math_round.
    apply (Qfloor_resp_le 0 (minScore cfg * 100 + (1 # 2))). lra.
  - unfold JS.Math_round. apply Qfloor_resp_le. lra.
  - apply (Math_round_between (d_score (decay host r) * 100) 0 100).
    + unfold inject_Z. lra.
    + cbn [Z.add Pos.add Pos.succ]. unfold inject_Z. lra.
Qed.

Lemma score_percent_range_witness :
  (0 <= JS.Math_round (minScore Demo.cfg * 100))%Z /\
  (JS.Math_round (minScore Demo.cfg * 100)
   <= JS.Math_round (d_score (decay Demo.host Demo.new_hit) * 100))%Z /\
  (JS.Math_round (d_score (decay Demo.host Demo.new_hit) * 100) <= 100)%Z.
Proof.
  apply (score_percent_range Demo.host Demo.no_config Demo.cfg "billing alarms").
  - reflexivity.
  - left. reflexivity.
  - discriminate.
Defined.
